(** * Flashcards: a shallow embedding of [flashcards.py]

    The program keeps two process-wide dictionaries, [Flashcard.flashcards]
    (term to card object) and [Flashcard.definitions] (definition to term),
    and drives them from an interactive loop that reads lines from the
    console.  The embedding below follows the source function by function.

    Conventions of the model.
    - A Python [str] is a [string]: a sequence of code points below 256.
      [str.lower], [str.strip] and [int] are modelled on that range.
    - A Python [int] is a [Z].
    - A Python [dict] is an association list in insertion order, since
      [export], [ask] and [hardest_card] iterate over the values.
    - A card object lives in the slot of the dictionary that holds it; the
      list [ask] iterates over holds references to these objects, modelled
      as slot positions, so that a card presented twice is the same object.
    - The console, the transcript buffer [output], the file system and the
      random number generator are fields of the [World]; an operation is a
      function from worlds to a result and a world, and an exception leaves
      the mutations made before it in place. *)

From Stdlib Require Import String Ascii List ZArith Lia Bool Arith.
From Stdlib Require Import DecimalString DecimalPos DecimalZ.
Import ListNotations.

Local Open Scope string_scope.
Local Open Scope list_scope.

(** ** Python strings *)

Module PyStr.

(** Code points that [str.isspace] accepts, below 256. *)
Definition is_space (c : ascii) : bool :=
  let n := nat_of_ascii c in
  (((9 <=? n) && (n <=? 13)) || ((28 <=? n) && (n <=? 32))
   || (n =? 133) || (n =? 160))%nat.

(** [str.lower] on one code point below 256. *)
Definition lower_char (c : ascii) : ascii :=
  let n := nat_of_ascii c in
  if (((65 <=? n) && (n <=? 90))
      || ((192 <=? n) && (n <=? 222) && negb (n =? 215)))%nat
  then ascii_of_nat (n + 32) else c.

Fixpoint lower (s : string) : string :=
  match s with
  | EmptyString => EmptyString
  | String c s' => String (lower_char c) (lower s')
  end.

Fixpoint lstrip (s : string) : string :=
  match s with
  | EmptyString => EmptyString
  | String c s' => if is_space c then lstrip s' else s
  end.

Fixpoint rstrip (s : string) : string :=
  match s with
  | EmptyString => EmptyString
  | String c s' =>
      match rstrip s' with
      | EmptyString => if is_space c then EmptyString else String c EmptyString
      | r => String c r
      end
  end.

(** [s.strip()] *)
Definition strip (s : string) : string := rstrip (lstrip s).

(** [s.split(sep)] for a non-empty [sep]: the fields between the
    occurrences of [sep], found from left to right.  [skip] counts the
    characters of a separator that was just recognised and are still to be
    passed over. *)
Fixpoint split_go (sep : string) (skip : nat) (s : string) : list string :=
  match s with
  | EmptyString => [EmptyString]
  | String c s' =>
      match skip with
      | S k => split_go sep k s'
      | O =>
          if prefix sep s
          then EmptyString :: split_go sep (String.length sep - 1) s'
          else match split_go sep 0 s' with
               | f :: fs => String c f :: fs
               | [] => [String c EmptyString]
               end
      end
  end.

Definition split (sep s : string) : list string := split_go sep 0 s.

(** [sep.join(l)] *)
Definition join (sep : string) (l : list string) : string := String.concat sep l.

(** [str(z)] for an integer. *)
Definition str (z : Z) : string := NilZero.string_of_int (Z.to_int z).

Definition is_digit (c : ascii) : bool :=
  let n := nat_of_ascii c in ((48 <=? n) && (n <=? 57))%nat.

(** The digits of an integer literal, single underscores between digits
    dropped; [None] when the text is not of that form.  [prev] tells
    whether the previous character was a digit. *)
Fixpoint int_digits (prev : bool) (s : string) : option string :=
  match s with
  | EmptyString => if prev then Some EmptyString else None
  | String c s' =>
      if is_digit c then option_map (String c) (int_digits true s')
      else if (c =? "_")%char then
        if prev then int_digits false s' else None
      else None
  end.

Definition int_unsigned (s : string) : option Z :=
  match int_digits false s with
  | Some ds => option_map Z.of_uint (NilZero.uint_of_string ds)
  | None => None
  end.

(** [int(s)] in base ten; [None] stands for [ValueError]. *)
Definition int (s : string) : option Z :=
  match strip s with
  | String "-" r => option_map Z.opp (int_unsigned r)
  | String "+" r => int_unsigned r
  | r => int_unsigned r
  end.

(** Reading a text file opened with the default [newline=None]: the line
    ends ["\r\n"] and ["\r"] become ["\n"]. *)
Fixpoint universal_newlines (s : string) : string :=
  match s with
  | EmptyString => EmptyString
  | String c s' =>
      if (c =? "013")%char then
        match s' with
        | String "010" _ => universal_newlines s'
        | _ => String "010" (universal_newlines s')
        end
      else String c (universal_newlines s')
  end.

(** Iterating over a text file: the lines, each with its line end, and a
    last line without one when the text does not end in a line end. *)
Fixpoint lines (s : string) : list string :=
  match s with
  | EmptyString => []
  | String c s' =>
      if (c =? "010")%char then String c EmptyString :: lines s'
      else match lines s' with
           | [] => [String c EmptyString]
           | l :: ls => String c l :: ls
           end
  end.

Definition nl : string := String "010" EmptyString.

End PyStr.

(** ** Python dictionaries, in insertion order *)

Section Dict.
Context {V : Type}.

Definition dict := list (string * V).

Fixpoint dict_get (k : string) (d : dict) : option V :=
  match d with
  | [] => None
  | (k', v) :: r => if (k' =? k)%string then Some v else dict_get k r
  end.

(** [k in d] *)
Definition dict_mem (k : string) (d : dict) : bool :=
  match dict_get k d with Some _ => true | None => false end.

(** [d[k] = v]: an existing key keeps its place. *)
Fixpoint dict_set (k : string) (v : V) (d : dict) : dict :=
  match d with
  | [] => [(k, v)]
  | (k', v') :: r =>
      if (k' =? k)%string then (k, v) :: r else (k', v') :: dict_set k v r
  end.

(** [del d[k]]: the entry of [k] goes; the identity when [k] is absent
    (the caller raises [KeyError] then). *)
Fixpoint dict_del (k : string) (d : dict) : dict :=
  match d with
  | [] => []
  | (k', v') :: r =>
      if (k' =? k)%string then dict_del k r else (k', v') :: dict_del k r
  end.

Definition dict_keys (d : dict) : list string := map fst d.
Definition dict_values (d : dict) : list V := map snd d.
End Dict.

Arguments dict V : clear implicits.

(** ** The card objects and the world *)

(** [class Flashcard]: the instance attributes. *)
Record Flashcard := mkFlashcard {
  term : string;
  definition : string;
  error_count : Z
}.

(** What the program can read and change: the two class-level
    dictionaries, the console, the transcript buffer [output], the text
    files, and the random number generator ([entropy] is the sequence of
    raw draws, [drawn] how many were consumed). *)
Record World := mkWorld {
  flashcards : dict Flashcard;
  definitions : dict string;
  stdin : list string;
  console : list string;
  output : string;
  files : dict string;
  entropy : nat -> nat;
  drawn : nat
}.

Definition with_flashcards (f : dict Flashcard) (w : World) : World :=
  mkWorld f (definitions w) (stdin w) (console w) (output w) (files w)
          (entropy w) (drawn w).
Definition with_definitions (d : dict string) (w : World) : World :=
  mkWorld (flashcards w) d (stdin w) (console w) (output w) (files w)
          (entropy w) (drawn w).
Definition with_stdin (i : list string) (w : World) : World :=
  mkWorld (flashcards w) (definitions w) i (console w) (output w) (files w)
          (entropy w) (drawn w).
Definition with_console (c : list string) (w : World) : World :=
  mkWorld (flashcards w) (definitions w) (stdin w) c (output w) (files w)
          (entropy w) (drawn w).
Definition with_output (o : string) (w : World) : World :=
  mkWorld (flashcards w) (definitions w) (stdin w) (console w) o (files w)
          (entropy w) (drawn w).
Definition with_files (f : dict string) (w : World) : World :=
  mkWorld (flashcards w) (definitions w) (stdin w) (console w) (output w) f
          (entropy w) (drawn w).
Definition with_drawn (n : nat) (w : World) : World :=
  mkWorld (flashcards w) (definitions w) (stdin w) (console w) (output w)
          (files w) (entropy w) n.

(** ** Operations: state and exceptions *)

Inductive exn :=
| KeyError | ValueError | ZeroDivisionError | EOFError | FileNotFoundError.

Inductive Res (A : Type) :=
| Ok (a : A)
| Raise (e : exn).
Arguments Ok {A} a.
Arguments Raise {A} e.

Definition M (A : Type) : Type := World -> Res A * World.

Definition ret {A} (a : A) : M A := fun w => (Ok a, w).
Definition raise {A} (e : exn) : M A := fun w => (Raise e, w).
Definition bind {A B} (m : M A) (k : A -> M B) : M B :=
  fun w => match m w with
           | (Ok a, w') => k a w'
           | (Raise e, w') => (Raise e, w')
           end.
Definition gets {A} (f : World -> A) : M A := fun w => (Ok (f w), w).
Definition modify (f : World -> World) : M unit := fun w => (Ok tt, f w).

Notation "x <- m ;; k" := (bind m (fun x => k))
  (at level 61, m at next level, right associativity).
Notation "m ;; k" := (bind m (fun _ => k))
  (at level 61, right associativity).

Definition dq : string := String "034" EmptyString.

(** [out(msg)]: print to the console and append to the transcript. *)
Definition out (msg : string) : M unit :=
  modify (fun w => with_output (output w ++ msg ++ PyStr.nl)
                     (with_console (console w ++ [msg]) w)).

(** The builtin [input()]: the next console line, [EOFError] at the end. *)
Definition input : M string :=
  fun w => match stdin w with
           | [] => (Raise EOFError, w)
           | l :: rest => (Ok l, with_stdin rest w)
           end.

(** [_input()]: read a line and echo it into the transcript. *)
Definition _input : M string :=
  string <- input ;;
  modify (fun w => with_output (output w ++ string ++ PyStr.nl) w) ;;
  ret string.

(** [Flashcard(term, definition, error_count)]: the constructor also
    records the definition in [Flashcard.definitions]. *)
Definition new_Flashcard (t d : string) (e : Z) : M Flashcard :=
  modify (fun w => with_definitions (dict_set d t (definitions w)) w) ;;
  ret (mkFlashcard t d e).

(** [Flashcard.flashcards[term] = card] *)
Definition store_card (t : string) (c : Flashcard) : M unit :=
  modify (fun w => with_flashcards (dict_set t c (flashcards w)) w).

(** *** add *)

(** The first [while True] of [add].  [pending] is the console input not
    yet read when the loop starts; each round reads one line of it. *)
Fixpoint add_term_loop (pending : list string) : M string :=
  match pending with
  | [] => _input
  | _ :: pending' =>
      t <- _input ;;
      fl <- gets flashcards ;;
      if dict_mem t fl
      then out ("The card " ++ dq ++ t ++ dq ++ " already exists. Try again:") ;;
           add_term_loop pending'
      else ret t
  end.

(** The second [while True] of [add]. *)
Fixpoint add_definition_loop (pending : list string) : M string :=
  match pending with
  | [] => _input
  | _ :: pending' =>
      d <- _input ;;
      ds <- gets definitions ;;
      if dict_mem d ds
      then out ("The definition " ++ dq ++ d ++ dq
                ++ " already exists. Try again:") ;;
           add_definition_loop pending'
      else ret d
  end.

Definition add : M unit :=
  out "The card:" ;;
  pending <- gets stdin ;;
  t <- add_term_loop pending ;;
  out "The definition of the card:" ;;
  pending <- gets stdin ;;
  d <- add_definition_loop pending ;;
  c <- new_Flashcard t d 0 ;;
  store_card t c ;;
  out ("The pair (" ++ dq ++ t ++ dq ++ ":" ++ dq ++ d ++ dq
       ++ ") has been added.").

(** *** remove *)

(** [del Flashcard.definitions[definition]] *)
Definition del_definition (d : string) : M unit :=
  ds <- gets definitions ;;
  if dict_mem d ds
  then modify (with_definitions (dict_del d ds))
  else raise KeyError.

Definition remove : M unit :=
  out "Which card?" ;;
  card <- _input ;;
  fl <- gets flashcards ;;
  match dict_get card fl with
  | None =>
      out ("Can't remove " ++ dq ++ card ++ dq ++ ": there is no such card.")
  | Some c =>
      modify (with_flashcards (dict_del card fl)) ;;
      del_definition (definition c) ;;
      out "The card has been removed."
  end.

(** *** import *)

(** The body of [for line in file]; [n] counts the cards loaded so far. *)
Fixpoint import_lines (ls : list string) (n : Z) : M Z :=
  match ls with
  | [] => ret n
  | line :: rest =>
      match PyStr.split "=|=" (PyStr.strip line) with
      | [t; d; e] =>
          match PyStr.int e with
          | Some e' =>
              c <- new_Flashcard t d e' ;;
              store_card t c ;;
              import_lines rest (n + 1)
          | None => raise ValueError
          end
      | _ => raise ValueError
      end
  end.

(** [if not filename: out(...); filename = _input()]: the argument was
    left out or is the empty string. *)
Definition filename_or_prompt (filename : option string) : M string :=
  match filename with
  | Some f => if (f =? "")%string then out "File name:" ;; _input else ret f
  | None => out "File name:" ;; _input
  end.

Definition import_file (filename : option string) : M unit :=
  f <- filename_or_prompt filename ;;
  fs <- gets files ;;
  match dict_get f fs with
  | None => out "File not found."
  | Some text =>
      n <- import_lines (PyStr.lines (PyStr.universal_newlines text)) 0 ;;
      out (PyStr.str n ++ " cards have been loaded.")
  end.

(** *** export *)

(** [open(filename, 'w')] followed by the prints into the file. *)
Definition write_file (f : string) (text : string) : M unit :=
  if (f =? "")%string then raise FileNotFoundError
  else modify (fun w => with_files (dict_set f text (files w)) w).

Definition card_line (c : Flashcard) : string :=
  term c ++ "=|=" ++ definition c ++ "=|=" ++ PyStr.str (error_count c)
  ++ PyStr.nl.

Definition export (filename : option string) : M unit :=
  f <- filename_or_prompt filename ;;
  fl <- gets flashcards ;;
  write_file f (String.concat "" (map card_line (dict_values fl))) ;;
  out (PyStr.str (Z.of_nat (length fl)) ++ " cards have been saved.").

(** *** ask *)

(** [l * k] on lists. *)
Fixpoint list_mul {A} (l : list A) (k : nat) : list A :=
  match k with
  | O => []
  | S k' => l ++ list_mul l k'
  end.

Fixpoint remove_nth {A} (j : nat) (l : list A) : list A :=
  match l, j with
  | [], _ => []
  | _ :: r, O => r
  | x :: r, S j' => x :: remove_nth j' r
  end.

(** One raw draw of the generator, reduced below [bound]. *)
Definition randbelow (bound : nat) : M nat :=
  fun w => (Ok (entropy w (drawn w) mod bound), with_drawn (S (drawn w)) w).

(** The standard library's [random.sample(population, k)]: [k] elements
    at distinct positions of the population, each taken out of the pool
    of the remaining ones by a draw of the generator. *)
Fixpoint sample_go {A} (pool : list A) (k : nat) : M (list A) :=
  match k with
  | O => ret []
  | S k' =>
      match pool with
      | [] => ret []
      | x :: _ =>
          j <- randbelow (length pool) ;;
          rest <- sample_go (remove_nth j pool) k' ;;
          ret (nth j pool x :: rest)
      end
  end.

Definition random_sample {A} (population : list A) (k : Z) : M (list A) :=
  if ((k <? 0) || (Z.of_nat (length population) <? k))%Z
  then raise ValueError
  else sample_go population (Z.to_nat k).

(** The references held by [list(Flashcard.flashcards.values())]: the
    slots of the dictionary, in iteration order. *)
Definition card_refs (fl : dict Flashcard) : list nat := seq 0 (length fl).

(** The cards [ask] will present, for the number [n] the user typed. *)
Definition select_cards (n : Z) : M (list nat) :=
  fl <- gets flashcards ;;
  let count := Z.of_nat (length fl) in
  if (n >? count)%Z then
    if (count =? 0)%Z then raise ZeroDivisionError
    else ret (firstn (Z.to_nat n)
                (list_mul (card_refs fl) (Z.to_nat (n / count + 1))))
  else random_sample (card_refs fl) n.

(** [flashcard.error_count += 1] on the object in slot [i]. *)
Fixpoint bump_error (i : nat) (fl : dict Flashcard) : dict Flashcard :=
  match fl, i with
  | [], _ => []
  | (k, c) :: r, O =>
      (k, mkFlashcard (term c) (definition c) (error_count c + 1)) :: r
  | kc :: r, S i' => kc :: bump_error i' r
  end.

(** One round of [for flashcard in flashcards], on the card in slot [i]
    (a reference always points into the dictionary). *)
Definition ask_card (i : nat) : M unit :=
  fl <- gets flashcards ;;
  match nth_error (dict_values fl) i with
  | None => ret tt
  | Some flashcard =>
      out ("Print the definition of " ++ dq ++ term flashcard ++ dq ++ ":") ;;
      guess <- _input ;;
      if (PyStr.lower guess =? PyStr.lower (definition flashcard))%string
      then out "Correct!"
      else
        ds <- gets definitions ;;
        match dict_get guess ds with
        | Some other =>
            out ("Wrong. The right answer is " ++ dq ++ definition flashcard
                 ++ dq ++ ", but your definition is correct for " ++ dq
                 ++ other ++ dq ++ ".")
        | None =>
            out ("Wrong. The right answer is " ++ dq ++ definition flashcard
                 ++ dq ++ ".")
        end ;;
        modify (fun w => with_flashcards (bump_error i (flashcards w)) w)
  end.

Fixpoint ask_loop (refs : list nat) : M unit :=
  match refs with
  | [] => ret tt
  | i :: rest => ask_card i ;; ask_loop rest
  end.

Definition parse_int (s : string) : M Z :=
  match PyStr.int s with
  | Some z => ret z
  | None => raise ValueError
  end.

Definition ask : M unit :=
  out "How many times to ask?" ;;
  s <- _input ;;
  n <- parse_int s ;;
  refs <- select_cards n ;;
  ask_loop refs.

(** *** log *)

Definition log : M unit :=
  out "File name:" ;;
  filename <- input ;;
  content <- gets (fun w => PyStr.split PyStr.nl (output w)) ;;
  write_file filename
    (String.concat "" (map (fun line => (line ++ PyStr.nl)%string) content)) ;;
  out "The log has been saved".

(** *** hardest card *)

(** [max(errors) if errors else 0] *)
Definition max_error (errors : list Z) : Z :=
  match errors with
  | [] => 0%Z
  | e :: es => fold_left Z.max es e
  end.

(** The second loop of [hardest_card]: [hardest_cards.append(term)] for
    each card whose error count is [m]. *)
Fixpoint collect_hardest (m : Z) (cards : list Flashcard)
    (hardest_cards : list string) : list string :=
  match cards with
  | [] => hardest_cards
  | flashcard :: rest =>
      if (error_count flashcard =? m)%Z
      then collect_hardest m rest (hardest_cards ++ [term flashcard])
      else collect_hardest m rest hardest_cards
  end.

(** The message for the collected terms. *)
Definition hardest_message (hardest_cards : list string) (m : Z) : string :=
  match hardest_cards with
  | [t] =>
      "The hardest card is " ++ dq ++ t ++ dq ++ ". You have "
      ++ PyStr.str m ++ " errors answering it."
  | _ =>
      "The hardest cards are " ++ dq
      ++ PyStr.join (dq ++ ", " ++ dq) hardest_cards
      ++ dq ++ ". You have " ++ PyStr.str m ++ " errors answering them."
  end.

Definition hardest_card : M unit :=
  fl <- gets flashcards ;;
  let errors := map error_count (dict_values fl) in
  let m := max_error errors in
  if (m =? 0)%Z then out "There are no cards with errors."
  else out (hardest_message (collect_hardest m (dict_values fl) []) m).

(** *** reset stats *)

(** [for flashcard in Flashcard.flashcards.values():
       flashcard.error_count = 0] *)
Fixpoint reset_all (fl : dict Flashcard) : dict Flashcard :=
  match fl with
  | [] => []
  | (k, c) :: rest => (k, mkFlashcard (term c) (definition c) 0) :: reset_all rest
  end.

Definition reset_stats : M unit :=
  modify (fun w => with_flashcards (reset_all (flashcards w)) w) ;;
  out "Card statistics have been reset.".

(** *** The interactive loop *)

(** The dispatch table [actions]. *)
Definition actions (action : string) : option (M unit) :=
  if (action =? "add")%string then Some add
  else if (action =? "remove")%string then Some remove
  else if (action =? "import")%string then Some (import_file None)
  else if (action =? "export")%string then Some (export None)
  else if (action =? "ask")%string then Some ask
  else if (action =? "log")%string then Some log
  else if (action =? "hardest card")%string then Some hardest_card
  else if (action =? "reset stats")%string then Some reset_stats
  else None.

(** How one round of [while True] in [main] ends: the loop goes on, the
    user left with [exit], or an exception escaped and ended the
    process. *)
Inductive Round := Continue | Exited | Crashed (e : exn).

(** One round of the loop.  [except KeyError: continue] catches the
    missing action and also a [KeyError] raised inside the action. *)
Definition main_round (w : World) : Round * World :=
  match (out "Input the action (add, remove, import, export, ask, exit, log, hardest card, reset stats):" ;;
         _input) w with
  | (Raise e, w1) => (Crashed e, w1)
  | (Ok action, w1) =>
      if (action =? "exit")%string then
        match out "Bye bye!" w1 with
        | (_, w2) => (Exited, w2)
        end
      else
        match actions action with
        | None => (Continue, w1)
        | Some act =>
            match act w1 with
            | (Raise KeyError, w2) => (Continue, w2)
            | (Raise e, w2) => (Crashed e, w2)
            | (Ok _, w2) =>
                match out "" w2 with
                | (_, w3) => (Continue, w3)
                end
            end
        end
  end.

(** The loop, for at most [fuel] rounds; [None] when the rounds ran out. *)
Fixpoint main_loop (fuel : nat) (w : World) : option (Round * World) :=
  match fuel with
  | O => None
  | S fuel' =>
      match main_round w with
      | (Continue, w') => main_loop fuel' w'
      | r => Some r
      end
  end.


(** ** Vocabulary of the properties *)

(** *** Messages and views of the store *)

(** What [remove] prints for a term that is not in the store. *)
Definition not_found_message (card : string) : string :=
  "Can't remove " ++ dq ++ card ++ dq ++ ": there is no such card.".

Definition menu : string :=
  "Input the action (add, remove, import, export, ask, exit, log, hardest card, reset stats):".

(** What [ask] prints before it reads the guess for a term. *)
Definition prompt (t : string) : string :=
  "Print the definition of " ++ dq ++ t ++ dq ++ ":".

(** The part of the primary mapping that is not a statistic: the keys
    with the term and the definition of their cards, in order. *)
Definition skeleton (fl : dict Flashcard) : list (string * string * string) :=
  map (fun kc => (fst kc, term (snd kc), definition (snd kc))) fl.

Definition triples (fl : dict Flashcard) : list (string * string * Z) :=
  map (fun c => (term c, definition c, error_count c)) (dict_values fl).

(** The terms [hardest_card] reports: none on the early return. *)
Definition hardest_cards (w : World) : list string :=
  let cards := dict_values (flashcards w) in
  let m := max_error (map error_count cards) in
  if (m =? 0)%Z then [] else collect_hardest m cards [].

(** The term of the card in slot [i] of the store. *)
Definition term_at (fl : dict Flashcard) (i : nat) : string :=
  nth i (map term (dict_values fl)) "".

(** The console lines of a run of questions that were all answered: for
    each question its prompt and then the line with its outcome. *)
Definition transcript (prompts outcomes : list string) : list string :=
  concat (map (fun po => [fst po; snd po]) (combine prompts outcomes)).

(** *** The quiz *)

(** The outcomes of one question, as the specification names them, and
    the line that reports each. *)
Inductive QuizResult :=
| Correct
| WrongButMatchesOtherTerm (correct_definition other_term : string)
| Wrong (correct_definition : string).

Definition render (r : QuizResult) : string :=
  match r with
  | Correct => "Correct!"
  | WrongButMatchesOtherTerm d t =>
      "Wrong. The right answer is " ++ dq ++ d ++ dq
      ++ ", but your definition is correct for " ++ dq ++ t ++ dq ++ "."
  | Wrong d => "Wrong. The right answer is " ++ dq ++ d ++ dq ++ "."
  end.

(** The outcome [ask] reports for a guess on a card, given the secondary
    mapping. *)
Definition verdict (ds : dict string) (card : Flashcard) (guess : string)
    : QuizResult :=
  if (PyStr.lower guess =? PyStr.lower (definition card))%string then Correct
  else match dict_get guess ds with
       | Some other => WrongButMatchesOtherTerm (definition card) other
       | None => Wrong (definition card)
       end.

(** What a run of the quiz may change between two worlds: nothing of the
    secondary mapping, no key, term or definition of the primary one; the
    console only grows; and a card whose error count differs was
    prompted for. *)
Definition quiz_frame (w w' : World) : Prop :=
  definitions w' = definitions w
  /\ skeleton (flashcards w') = skeleton (flashcards w)
  /\ exists added,
       console w' = console w ++ added
       /\ forall j c c',
            nth_error (dict_values (flashcards w)) j = Some c ->
            nth_error (dict_values (flashcards w')) j = Some c' ->
            error_count c' <> error_count c ->
            In (prompt (term c)) added.

(** *** Invariants of the store *)


Definition unique_terms (w : World) : Prop :=
  NoDup (map term (dict_values (flashcards w))).


(** Keys are unique and each is the term of its card. *)
Definition terms_ok (w : World) : Prop :=
  NoDup (dict_keys (flashcards w))
  /\ Forall (fun kc => term (snd kc) = fst kc) (flashcards w).

(** The two dictionaries agree: keys are unique and are the terms of
    their cards, and the secondary mapping sends a definition to a term
    exactly when the card of that term has that definition. *)
Definition store_consistent (w : World) : Prop :=
  NoDup (dict_keys (flashcards w))
  /\ Forall (fun kc => term (snd kc) = fst kc) (flashcards w)
  /\ forall d t,
       dict_get d (definitions w) = Some t
       <-> exists c, dict_get t (flashcards w) = Some c /\ definition c = d.

(** An operation that leaves the two dictionaries alone. *)
Definition keeps_store {A} (m : M A) : Prop :=
  forall w,
    flashcards (snd (m w)) = flashcards w
    /\ definitions (snd (m w)) = definitions w.


(** *** Sequences of operations *)

(** The operations a user can start from the menu; [import] and
    [export] also run from the command line, with the file name given. *)
Inductive action :=
| DoAdd
| DoRemove
| DoImport (filename : option string)
| DoExport (filename : option string)
| DoAsk
| DoLog
| DoHardestCard
| DoResetStats.

Definition run_action (a : action) : M unit :=
  match a with
  | DoAdd => add
  | DoRemove => remove
  | DoImport f => import_file f
  | DoExport f => export f
  | DoAsk => ask
  | DoLog => log
  | DoHardestCard => hardest_card
  | DoResetStats => reset_stats
  end.

(** The world after a sequence of operations.  As in [main], a
    [KeyError] is caught and the next operation runs; any other
    exception ends the process, and the sequence with it. *)
Fixpoint run_actions (ops : list action) (w : World) : World :=
  match ops with
  | [] => w
  | a :: rest =>
      match run_action a w with
      | (Ok _, w') => run_actions rest w'
      | (Raise KeyError, w') => run_actions rest w'
      | (Raise _, w') => w'
      end
  end.


(** *** The round trip through a file *)

(** [sep] occurs somewhere in [s]. *)
Fixpoint occurs (sep s : string) : bool :=
  prefix sep s
  || match s with
     | EmptyString => false
     | String _ s' => occurs sep s'
     end.

(** [s] ends with [suffix]. *)
Fixpoint ends_with (suffix s : string) : bool :=
  (s =? suffix)%string
  || match s with
     | EmptyString => false
     | String _ s' => ends_with suffix s'
     end.

(** The character [c] occurs in [s]. *)
Fixpoint has_char (c : ascii) (s : string) : bool :=
  match s with
  | EmptyString => false
  | String c' s' => (c' =? c)%char || has_char c s'
  end.

(** Every character of [s] satisfies [p]. *)
Fixpoint all_chars (p : ascii -> bool) (s : string) : bool :=
  match s with
  | EmptyString => true
  | String c s' => p c && all_chars p s'
  end.

(** The characters of the text of an integer. *)
Definition is_sign_or_digit (c : ascii) : bool :=
  PyStr.is_digit c || (c =? "-")%char.

Definition starts_with_space (s : string) : bool :=
  match s with
  | EmptyString => false
  | String c _ => PyStr.is_space c
  end.

(** A term or definition that a line of the file can carry: it holds no
    delimiter, does not end with the first two characters of one, and
    holds no line end. *)
Definition field_ok (s : string) : bool :=
  negb (occurs "=|=" s) && negb (ends_with "=|" s)
  && negb (has_char "010" s) && negb (has_char "013" s).

Definition card_ok (c : Flashcard) : bool :=
  field_ok (term c) && field_ok (definition c)
  && negb (starts_with_space (term c)).

(** A new process: both dictionaries empty, the files as they are. *)
Definition fresh_store (w : World) : World :=
  with_definitions [] (with_flashcards [] w).

(** [export] to the file [f], then [import_file] of [f] into a fresh
    store. *)
Definition round_trip (f : string) : M unit :=
  export (Some f) ;; modify fresh_store ;; import_file (Some f).

(** The round trip as the specification words it: when no term and no
    definition holds the delimiter, it returns normally and the store
    holds the same triples as before. *)
Definition round_trip_as_specified (f : string) (w : World) : Prop :=
  forallb (fun c => negb (occurs "=|=" (term c))
                    && negb (occurs "=|=" (definition c)))
    (dict_values (flashcards w)) = true ->
  fst (round_trip f w) = Ok tt
  /\ forall x, In x (triples (flashcards (snd (round_trip f w))))
               <-> In x (triples (flashcards w)).

(** *** Worlds of the examples *)

(** A world with no card and no file, and a file name typed at the
    console. *)
Definition bare_world (typed : list string) : World :=
  mkWorld [] [] typed [] "" [] (fun n => n) 0.

(** The store of the specification's example, with [foo] typed twice
    at the console. *)
Definition example_store : World :=
  mkWorld [("foo", mkFlashcard "foo" "bar" 0); ("baz", mkFlashcard "baz" "qux" 0)]
          [("bar", "foo"); ("qux", "baz")]
          ["foo"; "foo"] [] "" [] (fun n => n) 0.


(** The two cards of the specification's example, three questions asked
    for and three right answers typed. *)
Definition passes_example : World :=
  mkWorld [("A", mkFlashcard "A" "x" 0); ("B", mkFlashcard "B" "y" 0)]
          [("x", "A"); ("y", "B")] ["3"; "x"; "y"; "x"] [] "" []
          (fun n => n) 0.


Definition session_world : World :=
  bare_world ["foo"; "bar"; "foo"; "baz"; "bar"; "qux"; "2"; "bar"; "nope";
              "foo"].



(** A file with one definition for two terms, in a world with an empty
    store. *)
Definition shared_definition : string :=
  "a=|=x=|=0" ++ PyStr.nl ++ "b=|=x=|=0" ++ PyStr.nl.

Definition shared_world : World :=
  mkWorld [] [] [] [] "" [("cards.txt", shared_definition)] (fun n => n) 0.

(** A store with one card, added at the console, whose term starts with
    a blank. *)
Definition blank_term_world : World :=
  snd (add (bare_world [" a"; "b"])).

(** A store with one card, added at the console, whose definition ends
    with the first two characters of the delimiter. *)
Definition half_delimiter_world : World :=
  snd (add (bare_world ["a"; "b=|"])).

(** A store with one card, added at the console, whose term ends with a
    carriage return (a console line that ended in the two-character
    line end). *)
Definition carriage_return_world : World :=
  snd (add (bare_world [String "a" (String "013" EmptyString); "b"])).

(** *** Further views of the operations *)

(** What [add] prints when it refuses a term or a definition, and when
    it has stored the pair. *)
Definition term_refused (t : string) : string :=
  "The card " ++ dq ++ t ++ dq ++ " already exists. Try again:".

Definition definition_refused (d : string) : string :=
  "The definition " ++ dq ++ d ++ dq ++ " already exists. Try again:".

Definition pair_added (t d : string) : string :=
  "The pair (" ++ dq ++ t ++ dq ++ ":" ++ dq ++ d ++ dq ++ ") has been added.".

(** The record a line of an imported file stands for: the three fields
    of the stripped line, the third read as an integer; [None] when
    [import_file] raises on the line. *)
Definition parse_line (line : string) : option Flashcard :=
  match PyStr.split "=|=" (PyStr.strip line) with
  | [t; d; e] => option_map (mkFlashcard t d) (PyStr.int e)
  | _ => None
  end.

(** The primary and the secondary mapping after the records [cards] were
    stored one after the other. *)
Definition store_records (cards : list Flashcard) (fl : dict Flashcard)
    : dict Flashcard :=
  fold_left (fun acc c => dict_set (term c) c acc) cards fl.

Definition index_records (cards : list Flashcard) (ds : dict string)
    : dict string :=
  fold_left (fun acc c => dict_set (definition c) (term c) acc) cards ds.


(** A guess that does not match the definition of a card. *)
Definition missed (c : Flashcard) (guess : string) : bool :=
  negb (PyStr.lower guess =? PyStr.lower (definition c))%string.

(** How many of the questions [refs], answered by [guesses] in order,
    were on slot [j] and missed the definition of its card [c]. *)
Fixpoint misses (j : nat) (c : Flashcard) (refs : list nat)
    (guesses : list string) : Z :=
  match refs, guesses with
  | i :: refs', g :: guesses' =>
      ((if (i =? j)%nat && missed c g then 1 else 0)
       + misses j c refs' guesses')%Z
  | _, _ => 0%Z
  end.

(** An operation never gives back console input it has read. *)
Definition consumes {A} (m : M A) : Prop :=
  forall w, length (stdin (snd (m w))) <= length (stdin w).





(** The store after the file with one definition for two terms was
    imported and the second of its cards removed: the card [a] is left,
    and its definition is no key of the secondary mapping. *)
Definition orphan_world : World :=
  with_stdin ["remove"; "a"; "exit"]
    (run_actions [DoImport (Some "cards.txt"); DoRemove]
       (with_stdin ["b"] shared_world)).

(** *** Tactics *)

Ltac proj :=
  cbn [fst snd flashcards definitions stdin console output files entropy
       drawn with_flashcards with_definitions with_stdin with_console
       with_output with_files with_drawn].

Ltac run :=
  cbv beta iota delta [bind out _input input modify gets ret raise]; proj.

(** * Properties *)

(** ** Dictionaries *)

Section DictFacts.
Context {V : Type}.
Implicit Types (d : dict V) (k : string).

Lemma dict_get_del_eq k d : dict_get k (dict_del k d) = None.
Proof.
  induction d as [|[k' v] r IH]; simpl; auto.
  destruct (String.eqb_spec k' k) as [->|Hne]; auto.
  simpl. destruct (String.eqb_spec k' k); congruence.
Qed.

Lemma dict_get_del_neq k k' d :
  k' <> k -> dict_get k' (dict_del k d) = dict_get k' d.
Proof.
  intros Hne. induction d as [|[k0 v] r IH]; simpl; auto.
  destruct (String.eqb_spec k0 k) as [->|H0].
  - destruct (String.eqb_spec k k'); [congruence|auto].
  - simpl. destruct (String.eqb_spec k0 k'); auto.
Qed.

Lemma dict_get_del k k' d :
  dict_get k' (dict_del k d)
  = if (k' =? k)%string then None else dict_get k' d.
Proof.
  destruct (String.eqb_spec k' k) as [->|Hne].
  - apply dict_get_del_eq.
  - now apply dict_get_del_neq.
Qed.

Lemma dict_get_set k k' (v : V) d :
  dict_get k' (dict_set k v d)
  = if (k' =? k)%string then Some v else dict_get k' d.
Proof.
  induction d as [|[k0 v0] r IH]; simpl.
  - rewrite String.eqb_sym. reflexivity.
  - destruct (String.eqb_spec k0 k) as [->|H0]; simpl.
    + rewrite (String.eqb_sym k' k).
      destruct (String.eqb_spec k k'); auto.
    + destruct (String.eqb_spec k0 k') as [->|H1]; auto.
      destruct (String.eqb_spec k' k); congruence.
Qed.

Lemma dict_del_absent k d : dict_get k d = None -> dict_del k d = d.
Proof.
  induction d as [|[k0 v0] r IH]; simpl; auto.
  destruct (String.eqb_spec k0 k); [discriminate|].
  intros H. now rewrite IH.
Qed.


Lemma dict_In_get k (v : V) d :
  NoDup (dict_keys d) -> In (k, v) d -> dict_get k d = Some v.
Proof.
  induction d as [|[k0 v0] r IH]; simpl; [tauto|].
  intros Hnd [Heq|Hin].
  - injection Heq as -> ->. now rewrite String.eqb_refl.
  - inversion Hnd as [|? ? Hnotin Hnd']; subst.
    destruct (String.eqb_spec k0 k) as [->|Hne]; auto.
    exfalso. apply Hnotin. unfold dict_keys.
    change k with (fst (k, v)). now apply in_map.
Qed.

Lemma dict_get_None_keys k d : dict_get k d = None <-> ~ In k (dict_keys d).
Proof.
  induction d as [|[k0 v0] r IH]; simpl; [tauto|].
  destruct (String.eqb_spec k0 k) as [->|Hne].
  - split; [discriminate|]. intros H. exfalso. apply H. now left.
  - rewrite IH. tauto.
Qed.

End DictFacts.

(** ** remove *)

Lemma remove_run (w : World) (t : string) (rest : list string) :
  stdin w = t :: rest ->
  stdin (snd (remove w)) = rest
  /\ match dict_get t (flashcards w) with
     | None =>
         fst (remove w) = Ok tt
         /\ flashcards (snd (remove w)) = flashcards w
         /\ definitions (snd (remove w)) = definitions w
         /\ console (snd (remove w))
            = console w ++ ["Which card?"; not_found_message t]
     | Some c =>
         flashcards (snd (remove w)) = dict_del t (flashcards w)
         /\ definitions (snd (remove w))
            = dict_del (definition c) (definitions w)
         /\ fst (remove w)
            = if dict_mem (definition c) (definitions w)
              then Ok tt else Raise KeyError
     end.
Proof.
  intros Hin. unfold remove. run. rewrite Hin. run.
  destruct (dict_get t (flashcards w)) as [c|] eqn:Hget; run.
  - unfold del_definition. run.
    destruct (dict_mem (definition c) (definitions w)) eqn:Hmem; run.
    + auto.
    + unfold dict_mem in Hmem.
      destruct (dict_get (definition c) (definitions w)) eqn:Hd;
        [discriminate|].
      rewrite (dict_del_absent _ _ Hd). auto.
  - rewrite <- app_assoc. auto.
Qed.

Lemma skeleton_del (t : string) (fl : dict Flashcard) :
  skeleton (dict_del t fl)
  = filter (fun x => negb (fst (fst x) =? t)%string) (skeleton fl).
Proof.
  induction fl as [|[k c] r IH]; simpl; auto.
  destruct (String.eqb_spec k t); simpl; [auto|now rewrite IH].
Qed.

(** C6: [remove] on an absent term reports it and leaves both mappings as
    they were; on a present term the term leaves the primary mapping and
    the definition of its card leaves the secondary mapping; a second
    [remove] of the same term reports that there is no such card and
    changes nothing. *)
Theorem remove_deletes_or_reports (w : World) (t : string)
    (rest : list string) (Hin : stdin w = t :: rest) :
  (dict_get t (flashcards w) = None ->
     fst (remove w) = Ok tt
     /\ flashcards (snd (remove w)) = flashcards w
     /\ definitions (snd (remove w)) = definitions w
     /\ console (snd (remove w))
        = console w ++ ["Which card?"; not_found_message t])
  /\ (forall c, dict_get t (flashcards w) = Some c ->
        (forall k, dict_get k (flashcards (snd (remove w)))
                   = if (k =? t)%string then None
                     else dict_get k (flashcards w))
        /\ (forall d, dict_get d (definitions (snd (remove w)))
                      = if (d =? definition c)%string then None
                        else dict_get d (definitions w))
        /\ skeleton (flashcards (snd (remove w)))
           = filter (fun x => negb (fst (fst x) =? t)%string)
               (skeleton (flashcards w)))
  /\ (forall rest', rest = t :: rest' ->
        fst (remove (snd (remove w))) = Ok tt
        /\ flashcards (snd (remove (snd (remove w))))
           = flashcards (snd (remove w))
        /\ definitions (snd (remove (snd (remove w))))
           = definitions (snd (remove w))
        /\ console (snd (remove (snd (remove w))))
           = console (snd (remove w)) ++ ["Which card?"; not_found_message t]).
Proof.
  destruct (remove_run w t rest Hin) as [Hrest Hcase].
  assert (Hgone : dict_get t (flashcards (snd (remove w))) = None).
  { destruct (dict_get t (flashcards w)) as [c|] eqn:Hget.
    - destruct Hcase as (-> & _). apply dict_get_del_eq.
    - destruct Hcase as (_ & -> & _). exact Hget. }
  split; [|split].
  - intros Hnone. rewrite Hnone in Hcase. exact Hcase.
  - intros c Hsome. rewrite Hsome in Hcase.
    destruct Hcase as (Hf & Hd & _). rewrite Hf, Hd.
    repeat split.
    + intros k. apply dict_get_del.
    + intros d. apply dict_get_del.
    + apply skeleton_del.
  - intros rest' ->.
    destruct (remove_run (snd (remove w)) t rest' Hrest) as [_ Hcase'].
    rewrite Hgone in Hcase'. exact Hcase'.
Qed.

(** The store of the example: foo and baz; foo is removed twice. *)
Lemma remove_deletes_or_reports_witness :
  flashcards (snd (remove (snd (remove example_store))))
  = [("baz", mkFlashcard "baz" "qux" 0)].
Proof.
  pose proof (remove_deletes_or_reports example_store "foo" ["foo"] eq_refl)
    as (_ & _ & Htwice).
  destruct (Htwice [] eq_refl) as (_ & -> & _).
  reflexivity.
Defined.

(** ** import from a source that does not exist *)

(** C9: when the named file does not exist, [import_file] prints
    [File not found.] and returns normally, whether the name came as an
    argument or was typed at the prompt; no card is loaded, both mappings
    stay as they were, and the interactive loop goes on. *)
Theorem import_missing_source (w : World) (f : string)
    (Hmiss : dict_get f (files w) = None) :
  (f <> "" ->
     fst (import_file (Some f) w) = Ok tt
     /\ flashcards (snd (import_file (Some f) w)) = flashcards w
     /\ definitions (snd (import_file (Some f) w)) = definitions w
     /\ console (snd (import_file (Some f) w))
        = console w ++ ["File not found."])
  /\ (forall rest, stdin w = f :: rest ->
        fst (import_file None w) = Ok tt
        /\ flashcards (snd (import_file None w)) = flashcards w
        /\ definitions (snd (import_file None w)) = definitions w
        /\ console (snd (import_file None w))
           = console w ++ ["File name:"; "File not found."])
  /\ (forall rest, stdin w = "import" :: f :: rest ->
        fst (main_round w) = Continue
        /\ flashcards (snd (main_round w)) = flashcards w
        /\ definitions (snd (main_round w)) = definitions w
        /\ console (snd (main_round w))
           = console w ++ [menu; "File name:"; "File not found."; ""]).
Proof.
  split; [|split].
  - intros Hf. unfold import_file, filename_or_prompt.
    destruct (String.eqb_spec f "") as [->|_]; [congruence|].
    run. rewrite Hmiss. run. auto.
  - intros rest Hin. unfold import_file, filename_or_prompt.
    run. rewrite Hin. run. rewrite Hmiss. run.
    rewrite <- app_assoc. auto.
  - intros rest Hin. unfold main_round. run. rewrite Hin. run.
    change (actions "import") with (Some (import_file None)).
    cbn [String.eqb Ascii.eqb Bool.eqb].
    unfold import_file, filename_or_prompt.
    run. rewrite Hmiss. run.
    rewrite <- !app_assoc. auto.
Qed.

Lemma import_missing_source_witness :
  console (snd (import_file None (bare_world ["nowhere.txt"])))
  = ["File name:"; "File not found."].
Proof.
  pose proof (import_missing_source (bare_world ["nowhere.txt"])
                "nowhere.txt" eq_refl) as (_ & Hprompt & _).
  destruct (Hprompt [] eq_refl) as (_ & _ & _ & ->).
  reflexivity.
Defined.

(** ** hardest card and reset stats *)

Lemma fold_max_ge (es : list Z) (e : Z) : (e <= fold_left Z.max es e)%Z.
Proof.
  revert e. induction es as [|x es IH]; intros e; simpl; [lia|].
  specialize (IH (Z.max e x)). lia.
Qed.

Lemma fold_max_upper (es : list Z) (e x : Z) :
  In x es -> (x <= fold_left Z.max es e)%Z.
Proof.
  revert e. induction es as [|y es IH]; intros e; simpl; [tauto|].
  intros [->|Hin]; [|auto].
  pose proof (fold_max_ge es (Z.max e x)). lia.
Qed.

Lemma fold_max_attained (es : list Z) (e : Z) :
  In (fold_left Z.max es e) (e :: es).
Proof.
  revert e. induction es as [|x es IH]; intros e; simpl; [auto|].
  destruct (IH (Z.max e x)) as [Heq|Hin]; [|tauto].
  destruct (Z.max_spec e x) as [[_ Hm]|[_ Hm]]; rewrite Hm in *; tauto.
Qed.

Lemma max_error_upper (errors : list Z) (x : Z) :
  In x errors -> (x <= max_error errors)%Z.
Proof.
  destruct errors as [|e es]; simpl; [tauto|].
  intros [->|Hin]; [apply fold_max_ge|now apply fold_max_upper].
Qed.

Lemma max_error_attained (errors : list Z) :
  errors <> [] -> In (max_error errors) errors.
Proof.
  destruct errors as [|e es]; [congruence|].
  intros _. apply fold_max_attained.
Qed.

Lemma collect_hardest_filter (m : Z) (cards : list Flashcard)
    (acc : list string) :
  collect_hardest m cards acc
  = acc ++ map term (filter (fun c => (error_count c =? m)%Z) cards).
Proof.
  revert acc. induction cards as [|c r IH]; intros acc; simpl.
  - now rewrite app_nil_r.
  - destruct (error_count c =? m)%Z; rewrite IH; simpl; auto.
    now rewrite <- app_assoc.
Qed.


Lemma reset_all_zero (fl : dict Flashcard) :
  Forall (fun c => error_count c = 0%Z) (dict_values (reset_all fl)).
Proof.
  induction fl as [|[k c] r IH]; simpl; constructor; auto.
Qed.

Lemma reset_all_skeleton (fl : dict Flashcard) :
  skeleton (reset_all fl) = skeleton fl.
Proof.
  induction fl as [|[k c] r IH]; simpl; [auto|now rewrite IH].
Qed.

Lemma max_error_zero (cards : list Flashcard) :
  Forall (fun c => error_count c = 0%Z) cards ->
  max_error (map error_count cards) = 0%Z.
Proof.
  intros Hall. destruct cards as [|c r]; [reflexivity|].
  assert (Hne : map error_count (c :: r) <> []) by discriminate.
  apply max_error_attained in Hne.
  apply in_map_iff in Hne as (c' & Hc' & Hin).
  rewrite <- Hc'. rewrite Forall_forall in Hall. auto.
Qed.

(** C7: [reset_stats] always returns normally and leaves every card with
    error count 0, its key, term and definition and the secondary mapping
    as they were; [hardest_card] right after it, on any store and so on
    every non-empty one, names no term and reports that no card has
    errors. *)
Theorem reset_stats_clears_errors (w : World) :
  fst (reset_stats w) = Ok tt
  /\ Forall (fun c => error_count c = 0%Z)
       (dict_values (flashcards (snd (reset_stats w))))
  /\ skeleton (flashcards (snd (reset_stats w))) = skeleton (flashcards w)
  /\ definitions (snd (reset_stats w)) = definitions w
  /\ hardest_cards (snd (reset_stats w)) = []
  /\ fst ((reset_stats ;; hardest_card) w) = Ok tt
  /\ console (snd ((reset_stats ;; hardest_card) w))
     = console w ++ ["Card statistics have been reset.";
                     "There are no cards with errors."].
Proof.
  unfold reset_stats, hardest_cards, hardest_card. run.
  rewrite (max_error_zero _ (reset_all_zero (flashcards w))).
  change (0 =? 0)%Z with true. run. rewrite <- app_assoc.
  repeat split; auto using reset_all_zero, reset_all_skeleton.
Qed.

(** ** ask: one question *)

Lemma bump_error_skeleton (i : nat) (fl : dict Flashcard) :
  skeleton (bump_error i fl) = skeleton fl.
Proof.
  revert i. induction fl as [|[k c] r IH]; intros [|i]; simpl; auto.
  now rewrite IH.
Qed.

Lemma bump_error_same (i : nat) (fl : dict Flashcard) (c : Flashcard) :
  nth_error (dict_values fl) i = Some c ->
  nth_error (dict_values (bump_error i fl)) i
  = Some (mkFlashcard (term c) (definition c) (error_count c + 1)).
Proof.
  revert i. induction fl as [|[k c0] r IH]; intros [|i]; simpl;
    try discriminate.
  - now intros [= ->].
  - apply IH.
Qed.

Lemma bump_error_other (i j : nat) (fl : dict Flashcard) :
  j <> i ->
  nth_error (dict_values (bump_error i fl)) j
  = nth_error (dict_values fl) j.
Proof.
  revert i j. induction fl as [|[k c0] r IH]; intros [|i] [|j] Hne; simpl;
    auto; try congruence.
Qed.

Lemma ask_card_run (w : World) (i : nat) (card : Flashcard)
    (guess : string) (rest : list string) :
  nth_error (dict_values (flashcards w)) i = Some card ->
  stdin w = guess :: rest ->
  fst (ask_card i w) = Ok tt
  /\ stdin (snd (ask_card i w)) = rest
  /\ definitions (snd (ask_card i w)) = definitions w
  /\ console (snd (ask_card i w))
     = console w ++ [prompt (term card);
                     render (verdict (definitions w) card guess)]
  /\ flashcards (snd (ask_card i w))
     = if (PyStr.lower guess =? PyStr.lower (definition card))%string
       then flashcards w else bump_error i (flashcards w).
Proof.
  intros Hcard Hin. unfold ask_card, verdict. run. rewrite Hcard. run.
  rewrite Hin. run.
  destruct (PyStr.lower guess =? PyStr.lower (definition card))%string; run.
  - rewrite <- app_assoc. auto.
  - destruct (dict_get guess (definitions w)); run;
      rewrite <- app_assoc; auto.
Qed.




(** ** ask: what a run may change *)

Lemma skeleton_nth (fl fl' : dict Flashcard) (j : nat) (c : Flashcard) :
  skeleton fl' = skeleton fl ->
  nth_error (dict_values fl) j = Some c ->
  exists c', nth_error (dict_values fl') j = Some c'
             /\ term c' = term c /\ definition c' = definition c.
Proof.
  revert fl' j. induction fl as [|[k c0] r IH]; intros [|[k' c0'] r'] j;
    simpl; try discriminate.
  - destruct j; discriminate.
  - intros [= Hk Ht Hd Hr]. destruct j as [|j]; simpl.
    + intros [= <-]. eauto.
    + now apply IH.
Qed.

Lemma skeleton_keys (fl : dict Flashcard) :
  dict_keys fl = map (fun x => fst (fst x)) (skeleton fl).
Proof. unfold dict_keys, skeleton. now rewrite map_map. Qed.

Lemma quiz_frame_refl (w : World) : quiz_frame w w.
Proof.
  repeat split. exists []. split; [now rewrite app_nil_r|].
  intros j c c' H1 H2. rewrite H1 in H2. congruence.
Qed.

Lemma quiz_frame_trans (w1 w2 w3 : World) :
  quiz_frame w1 w2 -> quiz_frame w2 w3 -> quiz_frame w1 w3.
Proof.
  intros (Hd1 & Hs1 & a1 & Hc1 & He1) (Hd2 & Hs2 & a2 & Hc2 & He2).
  split; [congruence|]. split; [congruence|].
  exists (a1 ++ a2). split; [rewrite Hc2, Hc1; now rewrite app_assoc|].
  intros j c c3 Hj1 Hj3 Hne.
  destruct (skeleton_nth _ _ j c Hs1 Hj1) as (c2 & Hj2 & Ht & _).
  apply in_or_app.
  destruct (Z.eq_dec (error_count c2) (error_count c)) as [Heq|Hneq].
  - right. rewrite <- Ht. apply (He2 j c2 c3); congruence.
  - left. now apply (He1 j c c2).
Qed.

(** A step that touches neither dictionary and only adds console lines. *)
Lemma quiz_frame_quiet (w w' : World) (added : list string) :
  flashcards w' = flashcards w ->
  definitions w' = definitions w ->
  console w' = console w ++ added ->
  quiz_frame w w'.
Proof.
  intros Hf Hd Hc. split; [exact Hd|]. split; [now rewrite Hf|].
  exists added. split; [exact Hc|].
  intros j c c' H1 H2. rewrite Hf, H1 in H2. congruence.
Qed.

Lemma quiz_frame_bind {A B} (m : M A) (k : A -> M B) (w : World) :
  quiz_frame w (snd (m w)) ->
  (forall a w', quiz_frame w' (snd (k a w'))) ->
  quiz_frame w (snd (bind m k w)).
Proof.
  intros Hm Hk. unfold bind.
  destruct (m w) as [[a|e] w'] eqn:Hmw; simpl in *; [|exact Hm].
  eapply quiz_frame_trans; [exact Hm|apply Hk].
Qed.

Lemma quiz_frame_out (msg : string) (w : World) :
  quiz_frame w (snd (out msg w)).
Proof. now apply (quiz_frame_quiet _ _ [msg]). Qed.

Lemma quiz_frame_input (w : World) : quiz_frame w (snd (_input w)).
Proof.
  unfold _input. run. destruct (stdin w); run;
    now apply (quiz_frame_quiet _ _ []); rewrite ?app_nil_r.
Qed.

Lemma sample_go_quiet {A} (pool : list A) (k : nat) (w : World) :
  flashcards (snd (sample_go pool k w)) = flashcards w
  /\ definitions (snd (sample_go pool k w)) = definitions w
  /\ console (snd (sample_go pool k w)) = console w.
Proof.
  revert pool w. induction k as [|k IH]; intros pool w; simpl; [now run|].
  destruct pool as [|x pool]; [now run|].
  unfold randbelow. run.
  specialize (IH (remove_nth (entropy w (drawn w) mod S (length pool))
                    (x :: pool))
                 (with_drawn (S (drawn w)) w)).
  destruct (sample_go _ k (with_drawn (S (drawn w)) w)) as [[l|e] w'];
    exact IH.
Qed.

Lemma select_cards_quiet (n : Z) (w : World) :
  flashcards (snd (select_cards n w)) = flashcards w
  /\ definitions (snd (select_cards n w)) = definitions w
  /\ console (snd (select_cards n w)) = console w.
Proof.
  unfold select_cards. run.
  destruct (n >? Z.of_nat (length (flashcards w)))%Z.
  - destruct (Z.of_nat (length (flashcards w)) =? 0)%Z; now run.
  - unfold random_sample.
    destruct ((n <? 0)%Z || (Z.of_nat (length (card_refs (flashcards w))) <? n)%Z);
      [now run|apply sample_go_quiet].
Qed.

Lemma quiz_frame_ask_card (i : nat) (w : World) :
  quiz_frame w (snd (ask_card i w)).
Proof.
  destruct (nth_error (dict_values (flashcards w)) i) as [card|] eqn:Hcard.
  - destruct (stdin w) as [|guess rest] eqn:Hin.
    + unfold ask_card. run. rewrite Hcard. run. rewrite Hin. run.
      now apply (quiz_frame_quiet _ _ [prompt (term card)]).
    + destruct (ask_card_run w i card guess rest Hcard Hin)
        as (_ & _ & Hd & Hcon & Hfl).
      split; [exact Hd|]. split.
      * rewrite Hfl.
        destruct (PyStr.lower guess =? PyStr.lower (definition card))%string;
          [reflexivity|apply bump_error_skeleton].
      * eexists. split; [exact Hcon|].
        intros j c c' Hj Hj' Hne. rewrite Hfl in Hj'.
        destruct (PyStr.lower guess =? PyStr.lower (definition card))%string.
        { rewrite Hj in Hj'. congruence. }
        destruct (Nat.eq_dec j i) as [->|Hji].
        { rewrite Hcard in Hj. injection Hj as <-. now left. }
        rewrite bump_error_other in Hj' by exact Hji.
        rewrite Hj in Hj'. congruence.
  - unfold ask_card. run. rewrite Hcard. apply quiz_frame_refl.
Qed.

Lemma quiz_frame_ask_loop (refs : list nat) (w : World) :
  quiz_frame w (snd (ask_loop refs w)).
Proof.
  revert w. induction refs as [|i rest IH]; intros w; simpl.
  - apply quiz_frame_refl.
  - apply quiz_frame_bind; [apply quiz_frame_ask_card|auto].
Qed.

Lemma quiz_frame_ask (w : World) : quiz_frame w (snd (ask w)).
Proof.
  unfold ask.
  apply quiz_frame_bind; [apply quiz_frame_out|intros _ w1].
  apply quiz_frame_bind; [apply quiz_frame_input|intros s w2].
  apply quiz_frame_bind.
  { unfold parse_int. destruct (PyStr.int s); apply quiz_frame_refl. }
  intros n w3.
  apply quiz_frame_bind; [|intros refs w4; apply quiz_frame_ask_loop].
  destruct (select_cards_quiet n w3) as (Hf & Hd & Hc).
  apply (quiz_frame_quiet _ _ []); rewrite ?app_nil_r; auto.
Qed.

(** C10: whatever the console input and however the run ends, [ask]
    leaves the secondary mapping as it was, and in the primary mapping
    the keys, their order, and the term and definition of every card;
    the console only grows, and a card whose error count has changed is
    one whose prompt was printed during the run. *)
Theorem ask_changes_only_error_counts (w : World) :
  definitions (snd (ask w)) = definitions w
  /\ dict_keys (flashcards (snd (ask w))) = dict_keys (flashcards w)
  /\ skeleton (flashcards (snd (ask w))) = skeleton (flashcards w)
  /\ exists added,
       console (snd (ask w)) = console w ++ added
       /\ forall j c c',
            nth_error (dict_values (flashcards w)) j = Some c ->
            nth_error (dict_values (flashcards (snd (ask w)))) j = Some c' ->
            error_count c' <> error_count c ->
            In (prompt (term c)) added.
Proof.
  destruct (quiz_frame_ask w) as (Hdefs & Hskel & added & Hcon & Herr).
  split; [exact Hdefs|]. split.
  - now rewrite !skeleton_keys, Hskel.
  - split; [exact Hskel|]. exists added. split; [exact Hcon|exact Herr].
Qed.

(** ** ask: the cards presented *)

Lemma refs_shift (c start len : nat) :
  map (fun i => i mod c) (seq (start + c) len)
  = map (fun i => i mod c) (seq start len).
Proof.
  revert start. induction len as [|len IH]; intros start; simpl; auto.
  f_equal; [|apply (IH (S start))].
  replace (start + c) with (start + 1 * c) by lia.
  apply Nat.Div0.mod_add.
Qed.

Lemma list_mul_refs (c k : nat) :
  0 < c ->
  list_mul (seq 0 c) k = map (fun i => i mod c) (seq 0 (c * k)).
Proof.
  intros Hc. induction k as [|k IH]; simpl.
  - now rewrite Nat.mul_0_r.
  - replace (c * S k) with (c + c * k) by lia.
    rewrite seq_app, map_app, refs_shift, IH. f_equal.
    rewrite <- (map_id (seq 0 c)) at 1. apply map_ext_in.
    intros i Hi. apply in_seq in Hi. symmetry. apply Nat.mod_small. lia.
Qed.

Lemma firstn_refs (c n m : nat) :
  n <= m ->
  firstn n (map (fun i => i mod c) (seq 0 m))
  = map (fun i => i mod c) (seq 0 n).
Proof.
  intros Hle. rewrite firstn_map. f_equal.
  replace m with (n + (m - n)) by lia.
  rewrite seq_app, firstn_app, length_seq, Nat.sub_diag. simpl.
  rewrite app_nil_r. apply firstn_all2. rewrite length_seq. lia.
Qed.

Lemma refs_as_passes (c : nat) (n : Z) :
  0 < c ->
  (Z.of_nat c < n)%Z ->
  firstn (Z.to_nat n) (list_mul (seq 0 c) (Z.to_nat (n / Z.of_nat c + 1)))
  = map (fun i => i mod c) (seq 0 (Z.to_nat n)).
Proof.
  intros Hpos Hbig. rewrite list_mul_refs by exact Hpos.
  apply firstn_refs.
  assert (Hdiv : (n < Z.of_nat c * Z.succ (n / Z.of_nat c))%Z)
    by (apply Z.mul_succ_div_gt; lia).
  assert (Hq : (0 <= n / Z.of_nat c)%Z) by (apply Z.div_pos; lia).
  nia.
Qed.

Lemma select_cards_repeats (w : World) (n : Z) :
  0 < length (flashcards w) ->
  (Z.of_nat (length (flashcards w)) < n)%Z ->
  select_cards n w
  = (Ok (map (fun i => i mod length (flashcards w)) (seq 0 (Z.to_nat n))), w).
Proof.
  intros Hpos Hbig. unfold select_cards. run.
  destruct (Z.gtb_spec n (Z.of_nat (length (flashcards w)))) as [_|Hle];
    [|lia].
  destruct (Z.eqb_spec (Z.of_nat (length (flashcards w))) 0) as [H0|_];
    [lia|].
  unfold card_refs. now rewrite refs_as_passes.
Qed.

Lemma term_at_skeleton (fl fl' : dict Flashcard) (i : nat) :
  skeleton fl' = skeleton fl -> term_at fl' i = term_at fl i.
Proof.
  unfold term_at. intros Hs.
  assert (Hmap : forall l : dict Flashcard,
            map term (dict_values l)
            = map (fun x => snd (fst x)) (skeleton l)).
  { intros l. unfold dict_values, skeleton. rewrite !map_map. reflexivity. }
  now rewrite !Hmap, Hs.
Qed.

Lemma term_at_nth (fl : dict Flashcard) (i : nat) (c : Flashcard) :
  nth_error (dict_values fl) i = Some c -> term_at fl i = term c.
Proof.
  intros H. unfold term_at. apply nth_error_nth.
  rewrite nth_error_map, H. reflexivity.
Qed.

(** With a guess waiting for every question, the loop asks them all. *)
Lemma ask_loop_presents (refs : list nat) :
  forall (w : World) (guesses rest : list string),
    stdin w = guesses ++ rest ->
    length guesses = length refs ->
    (forall i, In i refs -> i < length (flashcards w)) ->
    fst (ask_loop refs w) = Ok tt
    /\ stdin (snd (ask_loop refs w)) = rest
    /\ exists outcomes,
         length outcomes = length refs
         /\ console (snd (ask_loop refs w))
            = console w
              ++ transcript
                   (map (fun i => prompt (term_at (flashcards w) i)) refs)
                   outcomes.
Proof.
  induction refs as [|i refs IH]; intros w guesses rest Hin Hlen Hrefs.
  - destruct guesses; [|discriminate]. simpl. run.
    repeat split; auto. exists []. split; [reflexivity|].
    unfold transcript. simpl. now rewrite app_nil_r.
  - destruct guesses as [|guess guesses]; [discriminate|].
    simpl in Hin, Hlen. injection Hlen as Hlen.
    assert (Hi : i < length (dict_values (flashcards w))).
    { unfold dict_values. rewrite length_map. apply Hrefs. now left. }
    apply nth_error_Some in Hi.
    destruct (nth_error (dict_values (flashcards w)) i) as [card|] eqn:Hcard;
      [clear Hi|congruence].
    destruct (ask_card_run w i card guess (guesses ++ rest) Hcard Hin)
      as (Hok & Hin' & _ & Hcon & _).
    pose proof (quiz_frame_ask_card i w) as (_ & Hskel & _).
    assert (Hlen' : length (flashcards (snd (ask_card i w)))
                    = length (flashcards w)).
    { apply (f_equal (@length _)) in Hskel. unfold skeleton in Hskel.
      now rewrite !length_map in Hskel. }
    destruct (IH (snd (ask_card i w)) guesses rest Hin' Hlen)
      as (Hok2 & Hrest2 & outcomes & Hlen2 & Hcon2).
    { intros j Hj. rewrite Hlen'. apply Hrefs. now right. }
    simpl. unfold bind.
    destruct (ask_card i w) as [[[]|e] w1] eqn:Hrun; simpl in *;
      [|discriminate].
    split; [exact Hok2|]. split; [exact Hrest2|].
    exists (render (verdict (definitions w) card guess) :: outcomes).
    split; [simpl; now rewrite Hlen2|].
    assert (Hmap : map (fun j => prompt (term_at (flashcards w1) j)) refs
                   = map (fun j => prompt (term_at (flashcards w) j)) refs).
    { apply map_ext. intros j. now rewrite (term_at_skeleton _ _ j Hskel). }
    rewrite Hcon2, Hcon, Hmap, <- app_assoc.
    unfold transcript. simpl. now rewrite (term_at_nth _ _ _ Hcard).
Qed.

(** C5: when the number typed is larger than the number of cards, and
    there is at least one card, [ask] draws nothing from the random
    generator and presents exactly that many cards: question number [k]
    (from 0) is on the card in slot [k mod count], which is full passes
    over the store in iteration order and a partial last pass, so every
    card is presented at least once. *)
Theorem ask_repeats_full_passes (w : World) (s : string) (n : Z)
    (rest : list string)
    (Hin : stdin w = s :: rest) (Hn : PyStr.int s = Some n)
    (Hpos : 0 < length (flashcards w))
    (Hbig : (Z.of_nat (length (flashcards w)) < n)%Z) :
  let refs := map (fun i => i mod length (flashcards w)) (seq 0 (Z.to_nat n)) in
  let w1 := snd ((out "How many times to ask?" ;; _input) w) in
  select_cards n w1 = (Ok refs, w1)
  /\ ask w = ask_loop refs w1
  /\ flashcards w1 = flashcards w
  /\ length refs = Z.to_nat n
  /\ refs = firstn (Z.to_nat n)
              (list_mul (card_refs (flashcards w))
                 (Z.to_nat (n / Z.of_nat (length (flashcards w)) + 1)))
  /\ (forall k, k < Z.to_nat n ->
        nth_error refs k = Some (k mod length (flashcards w)))
  /\ (forall j, j < length (flashcards w) -> In j refs)
  /\ (forall guesses rest',
        rest = guesses ++ rest' ->
        length guesses = Z.to_nat n ->
        fst (ask w) = Ok tt
        /\ stdin (snd (ask w)) = rest'
        /\ exists outcomes,
             length outcomes = Z.to_nat n
             /\ console (snd (ask w))
                = console w
                  ++ "How many times to ask?"
                     :: transcript
                          (map (fun i => prompt (term_at (flashcards w) i))
                             refs)
                          outcomes).
Proof.
  intros refs w1.
  assert (Hw1 : w1 = with_output ((output w ++ "How many times to ask?"
                                   ++ PyStr.nl) ++ s ++ PyStr.nl)
                       (with_stdin rest
                          (with_output (output w ++ "How many times to ask?"
                                        ++ PyStr.nl)
                             (with_console
                                (console w ++ ["How many times to ask?"]) w)))).
  { subst w1. run. rewrite Hin. now run. }
  assert (Hfl : flashcards w1 = flashcards w) by now rewrite Hw1.
  assert (Hsel : select_cards n w1 = (Ok refs, w1)).
  { subst refs. rewrite <- Hfl. apply select_cards_repeats; now rewrite Hfl. }
  assert (Hask : ask w = ask_loop refs w1).
  { unfold ask. run. rewrite Hin. run. unfold parse_int. rewrite Hn. run.
    rewrite <- Hw1. now rewrite Hsel. }
  split; [exact Hsel|]. split; [exact Hask|].
  split; [exact Hfl|]. split.
  { subst refs. now rewrite length_map, length_seq. }
  split.
  { subst refs. unfold card_refs. now rewrite refs_as_passes. }
  assert (Hlenrefs : length refs = Z.to_nat n).
  { subst refs. now rewrite length_map, length_seq. }
  split; [|split].
  - intros k Hk. subst refs.
    rewrite nth_error_map, nth_error_seq.
    destruct (Nat.ltb_spec k (Z.to_nat n)); [reflexivity|lia].
  - intros j Hj. subst refs. apply in_map_iff. exists j. split.
    + apply Nat.mod_small. exact Hj.
    + apply in_seq. lia.
  - intros guesses rest' -> Hlen. rewrite Hask.
    destruct (ask_loop_presents refs w1 guesses rest') as (Hok & Hrest & outcomes & Hlo & Hcon).
    + now rewrite Hw1.
    + now rewrite Hlenrefs.
    + intros i Hi. rewrite Hfl. subst refs.
      apply in_map_iff in Hi as (k & <- & _).
      now apply Nat.mod_upper_bound, Nat.neq_0_lt_0.
    + split; [exact Hok|]. split; [exact Hrest|].
      exists outcomes. split; [now rewrite Hlo|].
      rewrite Hcon, Hfl. rewrite Hw1. proj.
      now rewrite <- app_assoc.
Qed.

Lemma ask_repeats_full_passes_witness :
  fst (select_cards 3 passes_example) = Ok [0; 1; 0]
  /\ console (snd (ask passes_example))
     = ["How many times to ask?";
        prompt "A"; "Correct!"; prompt "B"; "Correct!";
        prompt "A"; "Correct!"].
Proof.
  pose proof (ask_repeats_full_passes passes_example "3" 3 ["x"; "y"; "x"]
                eq_refl eq_refl
                ltac:(simpl; lia) ltac:(simpl; lia)) as H.
  cbv zeta in H. destruct H as (_ & Hask & _).
  split; [reflexivity|]. rewrite Hask. reflexivity.
Defined.

(** ** ask on an empty store *)

(** C2 fails in the code: with no card in the store and a positive
    number typed, [ask] evaluates [n // len(Flashcard.flashcards)] with a
    zero divisor.  The [ZeroDivisionError] is not a [KeyError], so the
    loop of [main] does not catch it: the round ends the process, and
    the console shows the menu and the question only, no line reporting
    the failure. *)
Theorem ask_empty_store_crashes (w : World) (s : string) (n : Z)
    (Hempty : flashcards w = []) (Hn : PyStr.int s = Some n)
    (Hpos : (0 < n)%Z) :
  (forall rest, stdin w = s :: rest ->
     fst (ask w) = Raise ZeroDivisionError
     /\ console (snd (ask w)) = console w ++ ["How many times to ask?"])
  /\ (forall rest, stdin w = "ask" :: s :: rest ->
        fst (main_round w) = Crashed ZeroDivisionError
        /\ stdin (snd (main_round w)) = rest
        /\ console (snd (main_round w))
           = console w ++ [menu; "How many times to ask?"]).
Proof.
  assert (Hsel : forall w', flashcards w' = [] ->
                   select_cards n w' = (Raise ZeroDivisionError, w')).
  { intros w' Hw'. unfold select_cards. run. rewrite Hw'. simpl.
    destruct (Z.gtb_spec n 0) as [_|Hle]; [reflexivity|lia]. }
  split.
  - intros rest Hin. unfold ask. run. rewrite Hin. run.
    unfold parse_int. rewrite Hn. run.
    rewrite Hsel by exact Hempty. auto.
  - intros rest Hin. unfold main_round. run. rewrite Hin. run.
    change (actions "ask") with (Some ask).
    cbn [String.eqb Ascii.eqb Bool.eqb].
    unfold ask. run. unfold parse_int. rewrite Hn. run.
    rewrite Hsel by exact Hempty. proj.
    rewrite <- app_assoc. auto.
Qed.

Lemma ask_empty_store_crashes_witness :
  fst (main_round (bare_world ["ask"; "1"; "exit"]))
  = Crashed ZeroDivisionError
  /\ console (snd (main_round (bare_world ["ask"; "1"; "exit"])))
     = [menu; "How many times to ask?"].
Proof.
  pose proof (ask_empty_store_crashes (bare_world ["ask"; "1"; "exit"])
                "1" 1 eq_refl eq_refl ltac:(lia)) as (_ & Hmain).
  destruct (Hmain ["exit"] eq_refl) as (Hcrash & _ & Hcon).
  exact (conj Hcrash Hcon).
Defined.

(** ** Invariants of the store *)

Lemma keeps_bind {A B} (m : M A) (k : A -> M B) :
  keeps_store m -> (forall a, keeps_store (k a)) -> keeps_store (bind m k).
Proof.
  intros Hm Hk w. unfold bind. specialize (Hm w).
  destruct (m w) as [[a|e] w'] eqn:Hmw; simpl in *; [|exact Hm].
  destruct Hm as [Hf0 Hd0]. destruct (Hk a w') as [Hf Hd].
  split; congruence.
Qed.

Lemma keeps_out (msg : string) : keeps_store (out msg).
Proof. intros w. now run. Qed.

Lemma keeps_input : keeps_store input.
Proof. intros w. unfold input. now destruct (stdin w). Qed.

Lemma keeps__input : keeps_store _input.
Proof.
  unfold _input.
  apply keeps_bind; [apply keeps_input|intros s].
  apply keeps_bind; [|intros _]; intros w; now run.
Qed.

Lemma keeps_gets {A} (f : World -> A) : keeps_store (gets f).
Proof. intros w. now run. Qed.

Lemma keeps_ret {A} (a : A) : keeps_store (ret a).
Proof. intros w. now run. Qed.

Lemma keeps_write_file (f text : string) : keeps_store (write_file f text).
Proof.
  intros w. unfold write_file. destruct (f =? "")%string; now run.
Qed.

Lemma keeps_filename_or_prompt (filename : option string) :
  keeps_store (filename_or_prompt filename).
Proof.
  assert (Hprompt : keeps_store (out "File name:" ;; _input)).
  { apply keeps_bind; [apply keeps_out|intros _; apply keeps__input]. }
  destruct filename as [f|]; simpl; [|exact Hprompt].
  destruct (f =? "")%string; [exact Hprompt|apply keeps_ret].
Qed.

Lemma keeps_export (filename : option string) : keeps_store (export filename).
Proof.
  unfold export.
  apply keeps_bind; [apply keeps_filename_or_prompt|intros f].
  apply keeps_bind; [apply keeps_gets|intros fl].
  apply keeps_bind; [apply keeps_write_file|intros _; apply keeps_out].
Qed.

Lemma keeps_log : keeps_store log.
Proof.
  unfold log.
  apply keeps_bind; [apply keeps_out|intros _].
  apply keeps_bind; [apply keeps_input|intros f].
  apply keeps_bind; [apply keeps_gets|intros content].
  apply keeps_bind; [apply keeps_write_file|intros _; apply keeps_out].
Qed.

Lemma keeps_hardest_card : keeps_store hardest_card.
Proof.
  unfold hardest_card.
  apply keeps_bind; [apply keeps_gets|intros fl]. cbv zeta.
  destruct (_ =? 0)%Z; apply keeps_out.
Qed.

Lemma add_term_loop_fresh (pending : list string) :
  forall w, stdin w = pending ->
    flashcards (snd (add_term_loop pending w)) = flashcards w
    /\ definitions (snd (add_term_loop pending w)) = definitions w
    /\ forall t, fst (add_term_loop pending w) = Ok t ->
         dict_get t (flashcards w) = None.
Proof.
  induction pending as [|x pending IH]; intros w Hin; simpl.
  - unfold _input. run. rewrite Hin. run.
    repeat split; auto. discriminate.
  - run. rewrite Hin. run. unfold dict_mem.
    destruct (dict_get x (flashcards w)) eqn:Hx; run.
    + match goal with
      | |- context [add_term_loop pending ?w1] =>
          destruct (IH w1 eq_refl) as (Hf & Hd & Hfresh)
      end.
      revert Hf Hd Hfresh. proj. auto.
    + repeat split; auto. now intros t [= <-].
Qed.

Lemma add_definition_loop_fresh (pending : list string) :
  forall w, stdin w = pending ->
    flashcards (snd (add_definition_loop pending w)) = flashcards w
    /\ definitions (snd (add_definition_loop pending w)) = definitions w
    /\ forall d, fst (add_definition_loop pending w) = Ok d ->
         dict_get d (definitions w) = None.
Proof.
  induction pending as [|x pending IH]; intros w Hin; simpl.
  - unfold _input. run. rewrite Hin. run.
    repeat split; auto. discriminate.
  - run. rewrite Hin. run. unfold dict_mem.
    destruct (dict_get x (definitions w)) eqn:Hx; run.
    + match goal with
      | |- context [add_definition_loop pending ?w1] =>
          destruct (IH w1 eq_refl) as (Hf & Hd & Hfresh)
      end.
      revert Hf Hd Hfresh. proj. auto.
    + repeat split; auto. now intros d [= <-].
Qed.

















(** On a consistent store no two cards share a term or a definition. *)
Lemma terms_ok_unique (w : World) : terms_ok w -> unique_terms w.
Proof.
  intros [Hnd Hkt]. unfold unique_terms.
  replace (map term (dict_values (flashcards w)))
    with (dict_keys (flashcards w)); [exact Hnd|].
  unfold dict_keys, dict_values. rewrite map_map. apply map_ext_in.
  intros kc Hin. rewrite Forall_forall in Hkt. symmetry. now apply Hkt.
Qed.











(** ** Strings *)

Lemma append_nil_r (s : string) : (s ++ "")%string = s.
Proof. induction s; simpl; congruence. Qed.

Lemma append_assoc (a b c : string) :
  ((a ++ b) ++ c)%string = (a ++ (b ++ c))%string.
Proof. induction a; simpl; congruence. Qed.

Lemma has_char_app (c : ascii) (a b : string) :
  has_char c (a ++ b) = has_char c a || has_char c b.
Proof.
  induction a as [|x a IH]; simpl; auto.
  now rewrite IH, orb_assoc.
Qed.

(** *** Integers as text *)

Lemma uint_digits (d : Decimal.uint) :
  all_chars PyStr.is_digit (NilEmpty.string_of_uint d) = true.
Proof. induction d; simpl; auto. Qed.

Lemma int_digits_uint (d : Decimal.uint) :
  PyStr.int_digits true (NilEmpty.string_of_uint d)
  = Some (NilEmpty.string_of_uint d).
Proof.
  induction d; simpl; auto; now rewrite IHd.
Qed.

Lemma int_unsigned_uint (d : Decimal.uint) :
  d <> Decimal.Nil ->
  PyStr.int_unsigned (NilEmpty.string_of_uint d) = Some (Z.of_uint d).
Proof.
  intros Hd. unfold PyStr.int_unsigned.
  assert (Hdig : PyStr.int_digits false (NilEmpty.string_of_uint d)
                 = Some (NilEmpty.string_of_uint d)).
  { destruct d; [congruence| | | | | | | | | |]; simpl;
      now rewrite int_digits_uint. }
  rewrite Hdig.
  replace (NilEmpty.string_of_uint d) with (NilZero.string_of_uint d)
    by (destruct d; auto; congruence).
  now rewrite NilZero.usu.
Qed.

Lemma all_chars_impl (p q : ascii -> bool) (s : string) :
  (forall c, p c = true -> q c = true) ->
  all_chars p s = true -> all_chars q s = true.
Proof.
  intros Hpq. induction s as [|c s IH]; simpl; auto.
  intros H. apply andb_true_iff in H as [Hc Hs].
  now rewrite (Hpq c Hc), IH.
Qed.

Lemma all_chars_has_char (p : ascii -> bool) (c : ascii) (s : string) :
  p c = false -> all_chars p s = true -> has_char c s = false.
Proof.
  intros Hc. induction s as [|x s IH]; simpl; auto.
  intros H. apply andb_true_iff in H as [Hx Hs].
  rewrite (IH Hs), orb_false_r. apply Ascii.eqb_neq. congruence.
Qed.

Lemma str_chars (z : Z) : all_chars is_sign_or_digit (PyStr.str z) = true.
Proof.
  assert (Hu : forall d, all_chars is_sign_or_digit
                           (NilZero.string_of_uint d) = true).
  { intros d.
    assert (Hd : all_chars is_sign_or_digit (NilEmpty.string_of_uint d)
                 = true).
    { apply (all_chars_impl PyStr.is_digit); [|apply uint_digits].
      intros c Hc. unfold is_sign_or_digit. now rewrite Hc. }
    destruct d; auto. }
  unfold PyStr.str. destruct (Z.to_int z); simpl; auto.
Qed.

Lemma sign_or_digit_not_space (c : ascii) :
  is_sign_or_digit c = true -> PyStr.is_space c = false.
Proof.
  destruct c as [[] [] [] [] [] [] [] []]; vm_compute; congruence.
Qed.

Lemma str_nonempty (z : Z) : PyStr.str z <> "".
Proof.
  unfold PyStr.str.
  assert (Hu : forall p, NilZero.string_of_uint (Pos.to_uint p) <> "").
  { intros p. pose proof (Unsigned.to_uint_nonnil p) as Hp.
    destruct (Pos.to_uint p); simpl; congruence. }
  destruct z; simpl; [discriminate|apply Hu|discriminate].
Qed.

Lemma lstrip_clean (s : string) :
  starts_with_space s = false -> PyStr.lstrip s = s.
Proof. destruct s as [|c s]; simpl; auto. now intros ->. Qed.

Lemma rstrip_clean (s : string) :
  all_chars (fun c => negb (PyStr.is_space c)) s = true ->
  PyStr.rstrip s = s.
Proof.
  induction s as [|c s IH]; simpl; auto.
  intros H. apply andb_true_iff in H as [Hc Hs].
  rewrite (IH Hs). apply negb_true_iff in Hc. rewrite Hc.
  now destruct s.
Qed.

Lemma rstrip_app_clean (x y : string) :
  y <> "" -> PyStr.rstrip y = y -> PyStr.rstrip (x ++ y) = (x ++ y)%string.
Proof.
  intros Hne Hy. induction x as [|c x IH]; simpl; auto.
  rewrite IH. destruct (x ++ y)%string eqn:Hxy; auto.
  destruct x; simpl in Hxy; congruence.
Qed.

Lemma rstrip_app_nl (s : string) :
  PyStr.rstrip (s ++ PyStr.nl) = PyStr.rstrip s.
Proof. induction s as [|c s IH]; simpl; auto. now rewrite IH. Qed.

Lemma str_no_space (z : Z) :
  all_chars (fun c => negb (PyStr.is_space c)) (PyStr.str z) = true.
Proof.
  apply (all_chars_impl is_sign_or_digit); [|apply str_chars].
  intros c Hc. now rewrite (sign_or_digit_not_space c Hc).
Qed.

(** [int(str(z))] is [z]. *)
Lemma int_str (z : Z) : PyStr.int (PyStr.str z) = Some z.
Proof.
  unfold PyStr.int, PyStr.strip.
  assert (Hstrip : PyStr.rstrip (PyStr.lstrip (PyStr.str z)) = PyStr.str z).
  { rewrite lstrip_clean.
    - apply rstrip_clean, str_no_space.
    - pose proof (str_no_space z) as H.
      destruct (PyStr.str z) as [|c r]; simpl in *; auto.
      apply andb_true_iff in H as [Hc _]. now apply negb_true_iff. }
  rewrite Hstrip. unfold PyStr.str.
  rewrite <- (DecimalZ.of_to z) at 2.
  assert (Hpos : forall p,
            PyStr.int_unsigned (NilZero.string_of_uint (Pos.to_uint p))
            = Some (Z.of_uint (Pos.to_uint p))).
  { intros p. pose proof (Unsigned.to_uint_nonnil p) as Hp.
    rewrite <- int_unsigned_uint by exact Hp.
    destruct (Pos.to_uint p); auto; congruence. }
  destruct z as [|p|p]; simpl Z.to_int.
  - reflexivity.
  - simpl NilZero.string_of_int. simpl Z.of_int. rewrite <- Hpos.
    pose proof (Unsigned.to_uint_nonnil p) as Hp.
    destruct (Pos.to_uint p); [congruence| | | | | | | | | |]; reflexivity.
  - simpl NilZero.string_of_int. simpl Z.of_int.
    cbv beta iota. now rewrite Hpos.
Qed.

(** *** Lines and fields *)

Lemma universal_newlines_clean (s : string) :
  has_char "013" s = false -> PyStr.universal_newlines s = s.
Proof.
  induction s as [|c s IH]; simpl; auto.
  intros H. apply orb_false_iff in H as [Hc Hs].
  rewrite Hc. now rewrite IH.
Qed.

Lemma lines_app (l rest : string) :
  has_char "010" l = false ->
  PyStr.lines ((l ++ PyStr.nl) ++ rest)
  = (l ++ PyStr.nl)%string :: PyStr.lines rest.
Proof.
  induction l as [|c l IH]; simpl; auto.
  intros H. apply orb_false_iff in H as [Hc Hl].
  rewrite Hc. now rewrite IH.
Qed.

Lemma prefix_delimiter (s : string) :
  prefix "=|=" s
  = match s with
    | String a (String b (String c _)) =>
        (a =? "=")%char && (b =? "|")%char && (c =? "=")%char
    | _ => false
    end.
Proof.
  destruct s as [|a [|b [|c s]]]; cbn [prefix];
    repeat match goal with
      | |- context [ascii_dec ?x ?y] => destruct (ascii_dec x y)
      end; subst; cbn [andb]; auto;
    repeat match goal with
      | |- context [(?x =? ?y)%char] => destruct (Ascii.eqb_spec x y)
      end; cbn [andb]; try congruence.
  now destruct s.
Qed.

(** A field that is [field_ok] is cut off where it ends. *)
Lemma split_field (t rest : string) :
  occurs "=|=" t = false ->
  ends_with "=|" t = false ->
  PyStr.split_go "=|=" 0 (t ++ "=|=" ++ rest)
  = t :: PyStr.split_go "=|=" 0 rest.
Proof.
  remember ("=|=" ++ rest)%string as tail eqn:Htail.
  induction t as [|c t IH]; intros Hocc Hend.
  - subst tail. cbn [append PyStr.split_go].
    rewrite prefix_delimiter. reflexivity.
  - cbn [occurs] in Hocc. apply orb_false_iff in Hocc as [Hpre Hocc].
    cbn [ends_with] in Hend. apply orb_false_iff in Hend as [Hneq Hend].
    specialize (IH Hocc Hend).
    cbn [append PyStr.split_go].
    assert (Hno : prefix "=|=" (String c (t ++ tail)) = false).
    { rewrite prefix_delimiter in *. subst tail.
      destruct t as [|b [|c' t]]; cbn [append] in *.
      - destruct (Ascii.eqb_spec c "="); auto.
      - destruct (Ascii.eqb_spec c "="); auto.
        destruct (Ascii.eqb_spec b "|"); auto. subst.
        discriminate Hneq.
      - exact Hpre. }
    rewrite Hno, IH. reflexivity.
Qed.

Lemma split_last (s : string) :
  has_char "=" s = false -> PyStr.split_go "=|=" 0 s = [s].
Proof.
  induction s as [|c s IH]; intros H; [reflexivity|].
  cbn [has_char] in H. apply orb_false_iff in H as [Hc Hs].
  cbn [PyStr.split_go]. rewrite prefix_delimiter.
  assert (Hno : match String c s with
                | String a (String b (String c0 _)) =>
                    (a =? "=")%char && (b =? "|")%char && (c0 =? "=")%char
                | _ => false
                end = false).
  { destruct s as [|b [|c0 s]]; auto. now rewrite Hc. }
  rewrite Hno, (IH Hs). reflexivity.
Qed.

Lemma str_no_char (c : ascii) (z : Z) :
  is_sign_or_digit c = false -> has_char c (PyStr.str z) = false.
Proof.
  intros Hc. exact (all_chars_has_char _ c _ Hc (str_chars z)).
Qed.

Lemma field_ok_true (s : string) :
  field_ok s = true ->
  occurs "=|=" s = false /\ ends_with "=|" s = false
  /\ has_char "010" s = false /\ has_char "013" s = false.
Proof.
  unfold field_ok. rewrite !andb_true_iff, !negb_true_iff. tauto.
Qed.

(** The line [export] writes for a card reads back as its three
    fields. *)
Lemma card_line_fields (c : Flashcard) :
  card_ok c = true ->
  PyStr.split "=|=" (PyStr.strip (card_line c))
  = [term c; definition c; PyStr.str (error_count c)].
Proof.
  unfold card_ok. rewrite !andb_true_iff, negb_true_iff.
  intros [[Ht Hd] Hsp].
  apply field_ok_true in Ht as (Ht1 & Ht2 & _).
  apply field_ok_true in Hd as (Hd1 & Hd2 & _).
  set (line := (term c ++ "=|=" ++ definition c ++ "=|="
                ++ PyStr.str (error_count c))%string).
  assert (Hline : card_line c = (line ++ PyStr.nl)%string).
  { unfold card_line, line. now rewrite !append_assoc. }
  assert (Hstrip : PyStr.strip (card_line c) = line).
  { rewrite Hline. unfold PyStr.strip. rewrite lstrip_clean.
    - rewrite rstrip_app_nl. unfold line.
      rewrite <- !append_assoc.
      apply rstrip_app_clean; [apply str_nonempty|].
      apply rstrip_clean, str_no_space.
    - unfold line. destruct (term c); auto. }
  rewrite Hstrip. unfold PyStr.split, line.
  rewrite split_field by assumption.
  rewrite split_field by assumption.
  rewrite split_last by (now apply str_no_char). reflexivity.
Qed.

Lemma concat_cons (x : string) (xs : list string) :
  String.concat "" (x :: xs) = (x ++ String.concat "" xs)%string.
Proof. destruct xs; simpl; [now rewrite append_nil_r|reflexivity]. Qed.

Lemma card_line_chars (c : Flashcard) :
  card_ok c = true ->
  has_char "010" (term c ++ "=|=" ++ definition c ++ "=|="
                  ++ PyStr.str (error_count c)) = false
  /\ has_char "013" (card_line c) = false.
Proof.
  unfold card_ok. rewrite !andb_true_iff, negb_true_iff.
  intros [[Ht Hd] _].
  apply field_ok_true in Ht as (_ & _ & Ht1 & Ht2).
  apply field_ok_true in Hd as (_ & _ & Hd1 & Hd2).
  unfold card_line. rewrite !has_char_app, Ht1, Ht2, Hd1, Hd2.
  rewrite !str_no_char by reflexivity. split; reflexivity.
Qed.

Lemma exported_lines (cards : list Flashcard) :
  forallb card_ok cards = true ->
  PyStr.lines (PyStr.universal_newlines
                 (String.concat "" (map card_line cards)))
  = map card_line cards.
Proof.
  intros Hok.
  assert (Hcr : has_char "013" (String.concat "" (map card_line cards))
                = false).
  { induction cards as [|c r IH]; [reflexivity|].
    cbn [map forallb] in *. apply andb_true_iff in Hok as [Hc Hr].
    rewrite concat_cons, has_char_app, (IH Hr).
    now rewrite (proj2 (card_line_chars c Hc)). }
  rewrite universal_newlines_clean by exact Hcr. clear Hcr.
  induction cards as [|c r IH]; [reflexivity|].
  cbn [map forallb] in *. apply andb_true_iff in Hok as [Hc Hr].
  rewrite concat_cons.
  assert (Hline : card_line c
                  = ((term c ++ "=|=" ++ definition c ++ "=|="
                      ++ PyStr.str (error_count c)) ++ PyStr.nl)%string).
  { unfold card_line. now rewrite !append_assoc. }
  rewrite Hline at 1.
  rewrite lines_app by apply (proj1 (card_line_chars c Hc)).
  now rewrite <- Hline, (IH Hr).
Qed.

Lemma import_lines_cards (cards : list Flashcard) :
  forall n w,
    forallb card_ok cards = true ->
    fst (import_lines (map card_line cards) n w)
    = Ok (n + Z.of_nat (length cards))%Z
    /\ flashcards (snd (import_lines (map card_line cards) n w))
       = fold_left (fun fl c => dict_set (term c) c fl) cards (flashcards w)
    /\ files (snd (import_lines (map card_line cards) n w)) = files w.
Proof.
  induction cards as [|c r IH]; intros n w Hok.
  - simpl. run. split; [now rewrite Z.add_0_r|split; reflexivity].
  - cbn [map forallb] in *. apply andb_true_iff in Hok as [Hc Hr].
    cbn [import_lines]. rewrite (card_line_fields c Hc), int_str.
    unfold new_Flashcard, store_card. run.
    match goal with
    | |- context [import_lines _ _ ?w1] =>
        destruct (IH (n + 1)%Z w1 Hr) as (Hn & Hf & Hfiles)
    end.
    rewrite Hn, Hf, Hfiles. proj. split; [|split].
    + f_equal. cbn [length]. lia.
    + cbn [fold_left]. now destruct c.
    + reflexivity.
Qed.

Lemma dict_set_absent {V} (k : string) (v : V) (d : dict V) :
  dict_get k d = None -> dict_set k v d = d ++ [(k, v)].
Proof.
  induction d as [|[k0 v0] r IH]; simpl; auto.
  destruct (k0 =? k)%string; [discriminate|].
  intros H. now rewrite IH.
Qed.

Lemma fold_set_fresh (cards : list Flashcard) :
  forall acc : dict Flashcard,
    NoDup (dict_keys acc ++ map term cards) ->
    fold_left (fun fl c => dict_set (term c) c fl) cards acc
    = acc ++ map (fun c => (term c, c)) cards.
Proof.
  induction cards as [|c r IH]; intros acc Hnd; simpl.
  - now rewrite app_nil_r.
  - assert (Hfresh : dict_get (term c) acc = None).
    { apply dict_get_None_keys. intros Hin.
      apply NoDup_remove_2 in Hnd. apply Hnd. apply in_or_app. now left. }
    rewrite (dict_set_absent _ _ _ Hfresh), IH.
    + now rewrite <- app_assoc.
    + unfold dict_keys in *. rewrite map_app, <- app_assoc. exact Hnd.
Qed.

Lemma terms_ok_pairs (w : World) :
  terms_ok w ->
  flashcards w = map (fun c => (term c, c)) (dict_values (flashcards w))
  /\ NoDup (map term (dict_values (flashcards w))).
Proof.
  intros Hw. split; [|now apply terms_ok_unique].
  destruct Hw as [_ Hkt]. unfold dict_values. rewrite map_map.
  rewrite <- (map_id (flashcards w)) at 1. apply map_ext_in.
  intros [k c] Hin. rewrite Forall_forall in Hkt.
  specialize (Hkt _ Hin). simpl in *. now rewrite Hkt.
Qed.

(** ** export, then import into a fresh store *)

(** C4, as the code has it: when every term and definition is free of
    the delimiter, does not end with the first two characters of one and
    holds no line end, and no term starts with white space, [export]
    followed by [import_file] of the same file into a fresh store
    returns normally and rebuilds the primary mapping exactly: the same
    cards with the same triples, in the same order. *)
Theorem export_import_round_trip (w : World) (f : string)
    (Hf : f <> "") (Hterms : terms_ok w)
    (Hcards : forallb card_ok (dict_values (flashcards w)) = true) :
  fst (round_trip f w) = Ok tt
  /\ flashcards (snd (round_trip f w)) = flashcards w
  /\ triples (flashcards (snd (round_trip f w))) = triples (flashcards w)
  /\ dict_get f (files (snd (round_trip f w)))
     = Some (String.concat "" (map card_line (dict_values (flashcards w))))
  /\ round_trip_as_specified f w.
Proof.
  set (cards := dict_values (flashcards w)) in *.
  assert (Hrun : fst (round_trip f w) = Ok tt
                 /\ flashcards (snd (round_trip f w)) = flashcards w
                 /\ dict_get f (files (snd (round_trip f w)))
                    = Some (String.concat "" (map card_line cards))).
  { unfold round_trip, export, import_file, filename_or_prompt, write_file.
    assert (Hfe : (f =? "")%string = false) by now apply String.eqb_neq.
    rewrite Hfe. run. rewrite Hfe. run. unfold fresh_store. proj.
    rewrite dict_get_set, String.eqb_refl. run.
    fold cards. rewrite (exported_lines cards Hcards).
    match goal with
    | |- context [import_lines _ _ ?w1] =>
        destruct (import_lines_cards cards 0 w1 Hcards)
          as (Hn & Hfl & Hfiles);
        destruct (import_lines (map card_line cards) 0 w1) as [[n|e] w2]
    end; simpl in Hn; [|discriminate].
    revert Hfl Hfiles. run. intros Hfl Hfiles.
    rewrite Hfiles, dict_get_set, String.eqb_refl.
    split; [reflexivity|]. split; [|reflexivity].
    destruct (terms_ok_pairs w Hterms) as [Hpairs Hnd].
    rewrite Hfl, fold_set_fresh by exact Hnd.
    symmetry. exact Hpairs. }
  destruct Hrun as (Hok & Hfl & Hfile).
  split; [exact Hok|]. split; [exact Hfl|].
  split; [now rewrite Hfl|]. split; [exact Hfile|].
  intros _. split; [exact Hok|]. intros x. now rewrite Hfl.
Qed.

Lemma export_import_round_trip_witness :
  fst (round_trip "cards.txt" passes_example) = Ok tt
  /\ triples (flashcards (snd (round_trip "cards.txt" passes_example)))
     = [("A", "x", 0%Z); ("B", "y", 0%Z)].
Proof.
  assert (Hterms : terms_ok passes_example).
  { split.
    - repeat constructor; simpl; intuition discriminate.
    - repeat constructor. }
  pose proof (export_import_round_trip passes_example "cards.txt"
                ltac:(discriminate) Hterms eq_refl) as (Hok & _ & Htr & _).
  split; [exact Hok|]. rewrite Htr. reflexivity.
Defined.

(** C4 as worded fails on stores built at the console with [add].  A
    term that starts with a blank holds no delimiter, and comes back
    without the blank, because [import_file] strips the whole line.  A
    definition that ends with the first two characters of the delimiter
    holds no delimiter either, and the line written for it splits in the
    wrong place, so the import raises [ValueError].  A term that ends
    with a carriage return is read back as the end of a line, and the
    import raises [ValueError] as well. *)
Lemma round_trip_loses_fields :
  triples (flashcards blank_term_world) = [(" a", "b", 0%Z)]
  /\ triples (flashcards (snd (round_trip "cards.txt" blank_term_world)))
     = [("a", "b", 0%Z)]
  /\ ~ round_trip_as_specified "cards.txt" blank_term_world
  /\ triples (flashcards half_delimiter_world) = [("a", "b=|", 0%Z)]
  /\ fst (round_trip "cards.txt" half_delimiter_world) = Raise ValueError
  /\ ~ round_trip_as_specified "cards.txt" half_delimiter_world
  /\ fst (round_trip "cards.txt" carriage_return_world) = Raise ValueError
  /\ ~ round_trip_as_specified "cards.txt" carriage_return_world.
Proof.
  split; [reflexivity|]. split; [reflexivity|]. split.
  { intros H. destruct (H eq_refl) as [_ Hiff].
    destruct (proj2 (Hiff (" a", "b", 0%Z))) as [Heq|[]].
    - now left.
    - discriminate Heq. }
  split; [reflexivity|]. split; [reflexivity|]. split.
  { intros H. destruct (H eq_refl) as [Hok _]. discriminate Hok. }
  split; [reflexivity|].
  intros H. destruct (H eq_refl) as [Hok _]. discriminate Hok.
Qed.

(** * Further properties of the operations *)

(** ** add *)

Lemma add_term_loop_skips (t : string) (more : list string)
    (taken : list string) :
  forall w,
    stdin w = taken ++ t :: more ->
    (forall x, In x taken -> dict_get x (flashcards w) <> None) ->
    dict_get t (flashcards w) = None ->
    fst (add_term_loop (taken ++ t :: more) w) = Ok t
    /\ stdin (snd (add_term_loop (taken ++ t :: more) w)) = more
    /\ flashcards (snd (add_term_loop (taken ++ t :: more) w)) = flashcards w
    /\ definitions (snd (add_term_loop (taken ++ t :: more) w))
       = definitions w
    /\ console (snd (add_term_loop (taken ++ t :: more) w))
       = console w ++ map term_refused taken.
Proof.
  induction taken as [|x taken IH]; intros w Hin Htaken Hfresh;
    cbn [app add_term_loop map] in *; run; rewrite Hin; run;
    unfold dict_mem.
  - rewrite Hfresh. run. rewrite app_nil_r. auto.
  - destruct (dict_get x (flashcards w)) eqn:Hx;
      [|exfalso; apply (Htaken x); [now left|exact Hx]].
    run.
    match goal with
    | |- context [add_term_loop _ ?w1] =>
        destruct (IH w1 eq_refl (fun y Hy => Htaken y (or_intror Hy)) Hfresh)
          as (H1 & H2 & H3 & H4 & H5)
    end.
    rewrite H1, H2, H3, H4, H5. proj.
    rewrite <- app_assoc. auto.
Qed.

Lemma add_definition_loop_skips (d : string) (more : list string)
    (taken : list string) :
  forall w,
    stdin w = taken ++ d :: more ->
    (forall x, In x taken -> dict_get x (definitions w) <> None) ->
    dict_get d (definitions w) = None ->
    fst (add_definition_loop (taken ++ d :: more) w) = Ok d
    /\ stdin (snd (add_definition_loop (taken ++ d :: more) w)) = more
    /\ flashcards (snd (add_definition_loop (taken ++ d :: more) w))
       = flashcards w
    /\ definitions (snd (add_definition_loop (taken ++ d :: more) w))
       = definitions w
    /\ console (snd (add_definition_loop (taken ++ d :: more) w))
       = console w ++ map definition_refused taken.
Proof.
  induction taken as [|x taken IH]; intros w Hin Htaken Hfresh;
    cbn [app add_definition_loop map] in *; run; rewrite Hin; run;
    unfold dict_mem.
  - rewrite Hfresh. run. rewrite app_nil_r. auto.
  - destruct (dict_get x (definitions w)) eqn:Hx;
      [|exfalso; apply (Htaken x); [now left|exact Hx]].
    run.
    match goal with
    | |- context [add_definition_loop _ ?w1] =>
        destruct (IH w1 eq_refl (fun y Hy => Htaken y (or_intror Hy)) Hfresh)
          as (H1 & H2 & H3 & H4 & H5)
    end.
    rewrite H1, H2, H3, H4, H5. proj.
    rewrite <- app_assoc. auto.
Qed.

Lemma add_run (w : World) (taken_t taken_d : list string)
    (t d : string) (rest : list string)
    (Hin : stdin w = taken_t ++ t :: taken_d ++ d :: rest)
    (Htaken_t : forall x, In x taken_t -> dict_get x (flashcards w) <> None)
    (Ht : dict_get t (flashcards w) = None)
    (Htaken_d : forall x, In x taken_d -> dict_get x (definitions w) <> None)
    (Hd : dict_get d (definitions w) = None) :
  fst (add w) = Ok tt
  /\ stdin (snd (add w)) = rest
  /\ flashcards (snd (add w)) = flashcards w ++ [(t, mkFlashcard t d 0)]
  /\ definitions (snd (add w)) = definitions w ++ [(d, t)]
  /\ console (snd (add w))
     = console w
       ++ "The card:" :: map term_refused taken_t
       ++ "The definition of the card:" :: map definition_refused taken_d
       ++ [pair_added t d].
Proof.
  unfold add. run. rewrite Hin.
  match goal with
  | |- context [add_term_loop _ ?w1] =>
      pose proof (add_term_loop_skips t (taken_d ++ d :: rest) taken_t w1
                    Hin Htaken_t Ht) as (H1 & H2 & H3 & H4 & H5);
      destruct (add_term_loop (taken_t ++ t :: taken_d ++ d :: rest) w1)
        as [[t'|e] w2]
  end; cbn [fst snd] in *; [|discriminate]. injection H1 as ->.
  revert H3 H4 H5. run. intros H3 H4 H5. rewrite H2.
  rewrite <- H3 in Ht. rewrite <- H4 in Hd, Htaken_d.
  match goal with
  | |- context [add_definition_loop _ ?w3] =>
      pose proof (add_definition_loop_skips d rest taken_d w3
                    H2 Htaken_d Hd) as (G1 & G2 & G3 & G4 & G5);
      destruct (add_definition_loop (taken_d ++ d :: rest) w3)
        as [[d'|e] w4]
  end; cbn [fst snd] in *; [|discriminate]. injection G1 as ->.
  revert G3 G4 G5. unfold new_Flashcard, store_card. run. intros G3 G4 G5.
  rewrite G2, G3, G4, G5, H5.
  rewrite (dict_set_absent _ _ _ Ht), (dict_set_absent _ _ _ Hd).
  rewrite H3, H4.
  repeat split; auto.
  repeat (rewrite <- app_assoc; cbn [app]). reflexivity.
Qed.

(** X1: [add] refuses every line that is already a term, with one
    message each, and takes the first line that is not; it then refuses
    every line that is already a definition and takes the first that is
    not.  The new card, with error count 0, goes to the end of the
    primary mapping and its definition to the end of the secondary
    mapping, where both are then found; the refused lines change
    neither. *)
Theorem add_accepts_first_fresh (w : World) (taken_t taken_d : list string)
    (t d : string) (rest : list string)
    (Hin : stdin w = taken_t ++ t :: taken_d ++ d :: rest)
    (Htaken_t : forall x, In x taken_t -> dict_get x (flashcards w) <> None)
    (Ht : dict_get t (flashcards w) = None)
    (Htaken_d : forall x, In x taken_d -> dict_get x (definitions w) <> None)
    (Hd : dict_get d (definitions w) = None) :
  fst (add w) = Ok tt
  /\ stdin (snd (add w)) = rest
  /\ flashcards (snd (add w)) = flashcards w ++ [(t, mkFlashcard t d 0)]
  /\ definitions (snd (add w)) = definitions w ++ [(d, t)]
  /\ dict_get t (flashcards (snd (add w))) = Some (mkFlashcard t d 0)
  /\ dict_get d (definitions (snd (add w))) = Some t
  /\ console (snd (add w))
     = console w
       ++ "The card:" :: map term_refused taken_t
       ++ "The definition of the card:" :: map definition_refused taken_d
       ++ [pair_added t d].
Proof.
  destruct (add_run w taken_t taken_d t d rest Hin Htaken_t Ht Htaken_d Hd)
    as (Hok & Hrest & Hf & Hdefs & Hcon).
  repeat split; auto.
  - rewrite Hf, <- (dict_set_absent _ _ _ Ht), dict_get_set.
    now rewrite String.eqb_refl.
  - rewrite Hdefs, <- (dict_set_absent _ _ _ Hd), dict_get_set.
    now rewrite String.eqb_refl.
Qed.

Lemma add_accepts_first_fresh_witness :
  flashcards (snd (add (with_stdin ["foo"; "gnu"; "bar"; "gnat"] example_store)))
  = [("foo", mkFlashcard "foo" "bar" 0); ("baz", mkFlashcard "baz" "qux" 0);
     ("gnu", mkFlashcard "gnu" "gnat" 0)]
  /\ console (snd (add (with_stdin ["foo"; "gnu"; "bar"; "gnat"] example_store)))
     = ["The card:"; term_refused "foo"; "The definition of the card:";
        definition_refused "bar"; pair_added "gnu" "gnat"].
Proof.
  pose proof (add_accepts_first_fresh
                (with_stdin ["foo"; "gnu"; "bar"; "gnat"] example_store)
                ["foo"] ["bar"] "gnu" "gnat" [] eq_refl) as H.
  destruct H as (_ & _ & Hf & _ & _ & _ & Hc).
  - intros x [<-|[]]. discriminate.
  - reflexivity.
  - intros x [<-|[]]. discriminate.
  - reflexivity.
  - rewrite Hf, Hc. split; reflexivity.
Defined.

Lemma input_raises (w : World) (e : exn) :
  fst (_input w) = Raise e -> e = EOFError.
Proof.
  unfold _input. run. destruct (stdin w); run; [|discriminate].
  now intros [= <-].
Qed.

Lemma add_term_loop_raises (pending : list string) :
  forall w e, fst (add_term_loop pending w) = Raise e -> e = EOFError.
Proof.
  induction pending as [|x pending IH]; intros w e; cbn [add_term_loop].
  - apply input_raises.
  - run. destruct (stdin w) as [|l rest]; run; [now intros [= <-]|].
    destruct (dict_mem l (flashcards w)); run; [apply IH|discriminate].
Qed.

Lemma add_definition_loop_raises (pending : list string) :
  forall w e, fst (add_definition_loop pending w) = Raise e -> e = EOFError.
Proof.
  induction pending as [|x pending IH]; intros w e;
    cbn [add_definition_loop].
  - apply input_raises.
  - run. destruct (stdin w) as [|l rest]; run; [now intros [= <-]|].
    destruct (dict_mem l (definitions w)); run; [apply IH|discriminate].
Qed.

(** X2: [add] can fail in one way only, [EOFError] when the console
    input ends before a fresh term and a fresh definition were read, and
    then neither mapping has changed. *)
Theorem add_fails_only_at_end_of_input (w : World) (e : exn)
    (Hfail : fst (add w) = Raise e) :
  e = EOFError
  /\ flashcards (snd (add w)) = flashcards w
  /\ definitions (snd (add w)) = definitions w.
Proof.
  revert Hfail. unfold add. run.
  match goal with
  | |- context [add_term_loop _ ?w1] =>
      destruct (add_term_loop_fresh (stdin w) w1 eq_refl) as (Hf1 & Hd1 & _);
      pose proof (add_term_loop_raises (stdin w) w1) as Hr1;
      destruct (add_term_loop (stdin w) w1) as [[t|e1] w2]
  end; cbn [fst snd] in *; revert Hf1 Hd1; run; intros Hf1 Hd1.
  2:{ intros [= <-]. auto. }
  match goal with
  | |- context [add_definition_loop _ ?w3] =>
      destruct (add_definition_loop_fresh (stdin w2) w3 eq_refl)
        as (Hf2 & Hd2 & _);
      pose proof (add_definition_loop_raises (stdin w2) w3) as Hr2;
      destruct (add_definition_loop (stdin w2) w3) as [[d|e2] w4]
  end; cbn [fst snd] in *; revert Hf2 Hd2; run; intros Hf2 Hd2.
  - unfold new_Flashcard, store_card. run. discriminate.
  - intros [= <-]. split; [auto|]. split; congruence.
Qed.

Lemma add_fails_only_at_end_of_input_witness :
  fst (add (with_stdin ["foo"; "gnu"; "bar"] example_store)) = Raise EOFError
  /\ flashcards (snd (add (with_stdin ["foo"; "gnu"; "bar"] example_store)))
     = flashcards example_store.
Proof.
  pose proof (add_fails_only_at_end_of_input
                (with_stdin ["foo"; "gnu"; "bar"] example_store) EOFError
                eq_refl) as (_ & Hf & _).
  split; [reflexivity|exact Hf].
Defined.

(** ** import *)

Lemma parse_line_some (line : string) (c : Flashcard) :
  parse_line line = Some c ->
  exists t d e z,
    PyStr.split "=|=" (PyStr.strip line) = [t; d; e]
    /\ PyStr.int e = Some z /\ c = mkFlashcard t d z.
Proof.
  unfold parse_line.
  destruct (PyStr.split "=|=" (PyStr.strip line))
    as [|t [|d [|e [|x fields]]]]; try discriminate.
  destruct (PyStr.int e) as [z|] eqn:Hint; [|discriminate].
  intros [= <-]. exists t, d, e, z. auto.
Qed.

Lemma parse_line_none (line : string) (rest : list string) (n : Z)
    (w : World) :
  parse_line line = None ->
  import_lines (line :: rest) n w = (Raise ValueError, w).
Proof.
  unfold parse_line. cbn [import_lines].
  destruct (PyStr.split "=|=" (PyStr.strip line))
    as [|t [|d [|e [|x fields]]]]; try reflexivity.
  destruct (PyStr.int e); [discriminate|reflexivity].
Qed.

(** The lines before the first bad one are stored; the loop stops at the
    bad one, or returns the count when there is none. *)
Lemma import_lines_records (cards : list Flashcard) (tail : list string) :
  forall (good : list string) (n : Z) (w : World),
    map parse_line good = map Some cards ->
    (tail = [] \/ exists bad more, tail = bad :: more
                                   /\ parse_line bad = None) ->
    fst (import_lines (good ++ tail) n w)
    = match tail with
      | [] => Ok (n + Z.of_nat (length cards))%Z
      | _ => Raise ValueError
      end
    /\ flashcards (snd (import_lines (good ++ tail) n w))
       = store_records cards (flashcards w)
    /\ definitions (snd (import_lines (good ++ tail) n w))
       = index_records cards (definitions w)
    /\ console (snd (import_lines (good ++ tail) n w)) = console w
    /\ stdin (snd (import_lines (good ++ tail) n w)) = stdin w.
Proof.
  induction cards as [|c cards IH]; intros good n w Hgood Htail.
  - destruct good; [|discriminate]. cbn [app].
    destruct Htail as [->|(bad & more & -> & Hbad)].
    + simpl. run. rewrite Z.add_0_r. auto.
    + rewrite (parse_line_none _ _ _ _ Hbad). simpl. auto.
  - destruct good as [|line good]; [discriminate|].
    cbn [map] in Hgood. injection Hgood as Hline Hgood.
    apply parse_line_some in Hline as (t & d & e & z & Hsplit & Hint & ->).
    cbn [app import_lines]. rewrite Hsplit, Hint.
    unfold new_Flashcard, store_card. run.
    match goal with
    | |- context [import_lines _ _ ?w1] =>
        destruct (IH good (n + 1)%Z w1 Hgood Htail)
          as (H1 & H2 & H3 & H4 & H5)
    end.
    rewrite H1, H2, H3, H4, H5. proj.
    repeat split; auto.
    destruct tail; auto. f_equal. cbn [length]. lia.
Qed.









(** ** export, log and hardest card *)

(** X5: [export], [log] and [hardest_card] only read the store: whatever
    the console input and however they end, both mappings are afterwards
    what they were. *)
Theorem reporting_leaves_store (w : World) (filename : option string) :
  (flashcards (snd (export filename w)) = flashcards w
   /\ definitions (snd (export filename w)) = definitions w)
  /\ (flashcards (snd (log w)) = flashcards w
      /\ definitions (snd (log w)) = definitions w)
  /\ (flashcards (snd (hardest_card w)) = flashcards w
      /\ definitions (snd (hardest_card w)) = definitions w).
Proof.
  split; [apply keeps_export|]. split; [apply keeps_log|].
  apply keeps_hardest_card.
Qed.

Lemma parse_card_line (c : Flashcard) :
  card_ok c = true -> parse_line (card_line c) = Some c.
Proof.
  intros Hc. unfold parse_line.
  rewrite (card_line_fields c Hc), int_str. now destruct c.
Qed.

Lemma dict_set_same {V} (k : string) (v : V) (d : dict V) :
  dict_get k d = Some v -> dict_set k v d = d.
Proof.
  induction d as [|[k0 v0] r IH]; simpl; [discriminate|].
  destruct (String.eqb_spec k0 k) as [->|Hne].
  - now intros [= ->].
  - intros H. now rewrite IH.
Qed.

Lemma store_records_same (cards : list Flashcard) (fl : dict Flashcard) :
  (forall c, In c cards -> dict_get (term c) fl = Some c) ->
  store_records cards fl = fl.
Proof.
  unfold store_records. induction cards as [|c cards IH]; intros Hall;
    cbn [fold_left]; [reflexivity|].
  rewrite dict_set_same by (apply Hall; now left).
  apply IH. intros c' Hc'. apply Hall. now right.
Qed.

Lemma index_records_same (cards : list Flashcard) (ds : dict string) :
  (forall c, In c cards -> dict_get (definition c) ds = Some (term c)) ->
  index_records cards ds = ds.
Proof.
  unfold index_records. induction cards as [|c cards IH]; intros Hall;
    cbn [fold_left]; [reflexivity|].
  rewrite dict_set_same by (apply Hall; now left).
  apply IH. intros c' Hc'. apply Hall. now right.
Qed.

Lemma terms_ok_get (w : World) (c : Flashcard) :
  terms_ok w -> In c (dict_values (flashcards w)) ->
  dict_get (term c) (flashcards w) = Some c.
Proof.
  intros [Hnd Hkt] Hin. apply in_map_iff in Hin as ([k c'] & Hc & Hkc).
  simpl in Hc. subst c'. rewrite Forall_forall in Hkt.
  pose proof (Hkt _ Hkc) as Hk. simpl in Hk. rewrite Hk.
  now apply dict_In_get.
Qed.

(** X6: exporting a store and importing the file back into the same
    store changes no card: when the fields can be carried by a line, the
    import returns normally, every card is overwritten by itself, and on
    a store whose two mappings agree the secondary mapping stays as it
    was too. *)
Theorem export_then_import_same_store (w : World) (f : string)
    (Hf : f <> "") (Hterms : terms_ok w)
    (Hcards : forallb card_ok (dict_values (flashcards w)) = true) :
  fst ((export (Some f) ;; import_file (Some f)) w) = Ok tt
  /\ flashcards (snd ((export (Some f) ;; import_file (Some f)) w))
     = flashcards w
  /\ (store_consistent w ->
      definitions (snd ((export (Some f) ;; import_file (Some f)) w))
      = definitions w)
  /\ console (snd ((export (Some f) ;; import_file (Some f)) w))
     = console w
       ++ [(PyStr.str (Z.of_nat (length (flashcards w)))
            ++ " cards have been saved.")%string;
           (PyStr.str (Z.of_nat (length (flashcards w)))
            ++ " cards have been loaded.")%string].
Proof.
  set (cards := dict_values (flashcards w)) in *.
  assert (Hparse : map parse_line (map card_line cards) = map Some cards).
  { rewrite map_map. apply map_ext_in. intros c Hc.
    apply parse_card_line. rewrite forallb_forall in Hcards. auto. }
  assert (Hfe : (f =? "")%string = false) by now apply String.eqb_neq.
  unfold export, import_file, filename_or_prompt, write_file.
  rewrite Hfe. run. rewrite Hfe. run.
  rewrite dict_get_set, String.eqb_refl. run.
  fold cards. rewrite (exported_lines cards Hcards).
  match goal with
  | |- context [import_lines _ 0 ?w1] =>
      destruct (import_lines_records cards [] (map card_line cards) 0 w1
                  Hparse (or_introl eq_refl)) as (H1 & H2 & H3 & H4 & _);
      rewrite app_nil_r in H1, H2, H3, H4;
      destruct (import_lines (map card_line cards) 0 w1) as [[n|e] w2]
  end; cbn [fst snd] in *; [|discriminate].
  injection H1 as ->. revert H2 H3 H4. run. intros H2 H3 H4.
  rewrite H2, H3, H4, <- app_assoc. cbn [Z.add app].
  assert (Hlen : length cards = length (flashcards w))
    by (unfold cards, dict_values; apply length_map).
  rewrite Hlen.
  split; [reflexivity|]. split; [|split; [|reflexivity]].
  - apply store_records_same. intros c Hc. now apply terms_ok_get.
  - intros (_ & _ & Hidx). apply index_records_same. intros c Hc.
    apply Hidx. exists c. split; [now apply terms_ok_get|reflexivity].
Qed.

Lemma export_then_import_same_store_witness :
  flashcards (snd ((export (Some "cards.txt") ;; import_file (Some "cards.txt"))
                     passes_example))
  = flashcards passes_example.
Proof.
  assert (Hterms : terms_ok passes_example).
  { split.
    - repeat constructor; simpl; intuition discriminate.
    - repeat constructor. }
  exact (proj1 (proj2 (export_then_import_same_store passes_example
                         "cards.txt" ltac:(discriminate) Hterms eq_refl))).
Defined.

(** ** ask: the random sample *)








(** ** ask: the error counts *)

Lemma misses_definition (j : nat) (c c' : Flashcard) (refs : list nat) :
  definition c' = definition c ->
  forall guesses, misses j c' refs guesses = misses j c refs guesses.
Proof.
  intros Hd. induction refs as [|i refs IH]; intros [|g guesses];
    cbn [misses]; auto.
  unfold missed. now rewrite Hd, IH.
Qed.

Lemma ask_card_length (i : nat) (w : World) :
  length (flashcards (snd (ask_card i w))) = length (flashcards w).
Proof.
  destruct (quiz_frame_ask_card i w) as (_ & Hskel & _).
  apply (f_equal (@length _)) in Hskel. unfold skeleton in Hskel.
  now rewrite !length_map in Hskel.
Qed.

Lemma ask_loop_accounting (refs : list nat) :
  forall (w : World) (guesses rest : list string),
    stdin w = guesses ++ rest ->
    length guesses = length refs ->
    (forall i, In i refs -> i < length (flashcards w)) ->
    forall j c,
      nth_error (dict_values (flashcards w)) j = Some c ->
      nth_error (dict_values (flashcards (snd (ask_loop refs w)))) j
      = Some (mkFlashcard (term c) (definition c)
                (error_count c + misses j c refs guesses)).
Proof.
  induction refs as [|i refs IH]; intros w guesses rest Hin Hlen Hrefs j c Hj.
  - destruct guesses; [|discriminate]. cbn [ask_loop misses]. run.
    rewrite Hj, Z.add_0_r. now destruct c.
  - destruct guesses as [|g guesses]; [discriminate|].
    cbn [app length] in Hin, Hlen. injection Hlen as Hlen.
    assert (Hi : i < length (dict_values (flashcards w))).
    { unfold dict_values. rewrite length_map. apply Hrefs. now left. }
    apply nth_error_Some in Hi.
    destruct (nth_error (dict_values (flashcards w)) i) as [card|] eqn:Hcard;
      [clear Hi|congruence].
    destruct (ask_card_run w i card g (guesses ++ rest) Hcard Hin)
      as (Hok & Hin' & _ & _ & Hfl).
    pose proof (ask_card_length i w) as Hlen'.
    cbn [ask_loop misses]. unfold bind.
    destruct (ask_card i w) as [[[]|e] w1] eqn:Hrun; cbn [fst snd] in *;
      [|discriminate].
    assert (Hrefs' : forall i', In i' refs -> i' < length (flashcards w1)).
    { intros i' Hi'. rewrite Hlen'. apply Hrefs. now right. }
    unfold missed at 1.
    destruct (Nat.eqb_spec i j) as [->|Hij].
    + rewrite Hj in Hcard. injection Hcard as <-.
      destruct (PyStr.lower g =? PyStr.lower (definition c))%string eqn:Hm;
        cbn [negb andb].
      * assert (Hj1 : nth_error (dict_values (flashcards w1)) j = Some c)
          by now rewrite Hfl.
        rewrite (IH w1 guesses rest Hin' Hlen Hrefs' j c Hj1).
        now rewrite Z.add_0_l.
      * assert (Hj1 : nth_error (dict_values (flashcards w1)) j
                      = Some (mkFlashcard (term c) (definition c)
                                (error_count c + 1)))
          by (rewrite Hfl; now apply bump_error_same).
        rewrite (IH w1 guesses rest Hin' Hlen Hrefs' j _ Hj1).
        cbn [term definition error_count].
        rewrite (misses_definition j c
                   (mkFlashcard (term c) (definition c) (error_count c + 1))
                   refs eq_refl guesses).
        f_equal. f_equal. lia.
    + cbn [andb].
      assert (Hj1 : nth_error (dict_values (flashcards w1)) j = Some c).
      { rewrite Hfl.
        destruct (PyStr.lower g =? PyStr.lower (definition card))%string;
          [exact Hj|].
        rewrite bump_error_other by congruence. exact Hj. }
      rewrite (IH w1 guesses rest Hin' Hlen Hrefs' j c Hj1).
      now rewrite Z.add_0_l.
Qed.

(** X8: after a run of questions that were all answered, the error
    count of every card has grown by exactly the number of questions
    that were on that card and got a guess that does not match its
    definition; a card asked twice and missed twice counts two errors.
    Its term and definition are as before. *)
Theorem ask_loop_counts_misses (w : World) (refs : list nat)
    (guesses rest : list string) (j : nat) (c : Flashcard)
    (Hin : stdin w = guesses ++ rest)
    (Hlen : length guesses = length refs)
    (Hrefs : forall i, In i refs -> i < length (flashcards w))
    (Hj : nth_error (dict_values (flashcards w)) j = Some c) :
  nth_error (dict_values (flashcards (snd (ask_loop refs w)))) j
  = Some (mkFlashcard (term c) (definition c)
            (error_count c + misses j c refs guesses))
  /\ (0 <= misses j c refs guesses <= Z.of_nat (count_occ Nat.eq_dec refs j))%Z.
Proof.
  split; [now apply (ask_loop_accounting refs w guesses rest)|].
  clear. revert guesses.
  induction refs as [|i refs IH]; intros guesses.
  - destruct guesses; cbn [misses count_occ]; lia.
  - destruct guesses as [|g guesses]; cbn [misses count_occ].
    + destruct (Nat.eq_dec i j); lia.
    + specialize (IH guesses).
      destruct (Nat.eq_dec i j) as [->|Hne].
      * rewrite Nat.eqb_refl. destruct (missed c g); cbn [andb]; lia.
      * destruct (Nat.eqb_spec i j); [contradiction|]. cbn [andb]. lia.
Qed.

Lemma ask_loop_counts_misses_witness :
  nth_error
    (dict_values
       (flashcards
          (snd (ask_loop [0; 1; 0]
                  (with_stdin ["z"; "Y"; "nope"] passes_example))))) 0
  = Some (mkFlashcard "A" "x" 2).
Proof.
  pose proof (ask_loop_counts_misses
                (with_stdin ["z"; "Y"; "nope"] passes_example) [0; 1; 0]
                ["z"; "Y"; "nope"] [] 0 (mkFlashcard "A" "x" 0)
                eq_refl eq_refl) as H.
  destruct H as [Hslot _].
  - intros i [<-|[<-|[<-|[]]]]; simpl; lia.
  - reflexivity.
  - rewrite Hslot. reflexivity.
Defined.

(** X9: a run of questions in which every guess matches the definition
    of its card, whatever the case of the letters, returns normally,
    prints [Correct!] after every prompt and leaves the store as it was:
    no error count changes. *)
Theorem ask_loop_right_answers (w : World) (refs : list nat)
    (guesses rest : list string)
    (Hin : stdin w = guesses ++ rest)
    (Hlen : length guesses = length refs)
    (Hall : forall k i g,
        nth_error refs k = Some i -> nth_error guesses k = Some g ->
        exists c, nth_error (dict_values (flashcards w)) i = Some c
                  /\ PyStr.lower g = PyStr.lower (definition c)) :
  fst (ask_loop refs w) = Ok tt
  /\ stdin (snd (ask_loop refs w)) = rest
  /\ flashcards (snd (ask_loop refs w)) = flashcards w
  /\ definitions (snd (ask_loop refs w)) = definitions w
  /\ console (snd (ask_loop refs w))
     = console w
       ++ transcript (map (fun i => prompt (term_at (flashcards w) i)) refs)
            (repeat "Correct!" (length refs)).
Proof.
  revert w guesses rest Hin Hlen Hall.
  induction refs as [|i refs IH]; intros w guesses rest Hin Hlen Hall.
  - destruct guesses; [|discriminate]. cbn [ask_loop]. run.
    unfold transcript. cbn. rewrite app_nil_r. auto.
  - destruct guesses as [|g guesses]; [discriminate|].
    cbn [app length] in Hin, Hlen. injection Hlen as Hlen.
    destruct (Hall 0 i g eq_refl eq_refl) as (card & Hcard & Hmatch).
    destruct (ask_card_run w i card g (guesses ++ rest) Hcard Hin)
      as (Hok & Hin' & Hd & Hcon & Hfl).
    unfold verdict in Hcon.
    rewrite (proj2 (String.eqb_eq _ _) Hmatch) in Hcon, Hfl.
    cbn [ask_loop]. unfold bind.
    destruct (ask_card i w) as [[[]|e] w1]; cbn [fst snd] in *;
      [|discriminate].
    destruct (IH w1 guesses rest Hin' Hlen) as (H1 & H2 & H3 & H4 & H5).
    { intros k i' g' Hi' Hg'. rewrite Hfl.
      exact (Hall (S k) i' g' Hi' Hg'). }
    rewrite H1, H2, H3, H4, H5, Hfl, Hd, Hcon, <- app_assoc.
    repeat split; auto.
    unfold transcript. cbn [map length repeat combine concat app].
    now rewrite (term_at_nth _ _ _ Hcard).
Qed.

Lemma ask_loop_right_answers_witness :
  flashcards (snd (ask_loop [1; 0] (with_stdin ["Y"; "x"] passes_example)))
  = flashcards passes_example
  /\ console (snd (ask_loop [1; 0] (with_stdin ["Y"; "x"] passes_example)))
     = [prompt "B"; "Correct!"; prompt "A"; "Correct!"].
Proof.
  pose proof (ask_loop_right_answers (with_stdin ["Y"; "x"] passes_example)
                [1; 0] ["Y"; "x"] [] eq_refl eq_refl) as H.
  destruct H as (_ & _ & Hf & _ & Hc).
  - intros [|[|k]] i g; simpl; try discriminate.
    + intros [= <-] [= <-]. eexists. split; reflexivity.
    + intros [= <-] [= <-]. eexists. split; reflexivity.
    + destruct k; discriminate.
  - rewrite Hf, Hc. split; reflexivity.
Defined.

(** ** ask: the number typed *)



(** ** The interactive loop *)

(** X11: a line that is neither [exit] nor one of the eight commands is
    ignored: the round prints the menu only, not even the blank line
    that follows a command, changes nothing in the store and the loop
    goes on.  [exit] prints [Bye bye!] and leaves the loop. *)
Theorem main_round_ignores_unknown (w : World) (a : string)
    (rest : list string) (Hin : stdin w = a :: rest) :
  (actions a = None -> a <> "exit" ->
     fst (main_round w) = Continue
     /\ flashcards (snd (main_round w)) = flashcards w
     /\ definitions (snd (main_round w)) = definitions w
     /\ files (snd (main_round w)) = files w
     /\ stdin (snd (main_round w)) = rest
     /\ console (snd (main_round w)) = console w ++ [menu])
  /\ (a = "exit" ->
      fst (main_round w) = Exited
      /\ flashcards (snd (main_round w)) = flashcards w
      /\ definitions (snd (main_round w)) = definitions w
      /\ stdin (snd (main_round w)) = rest
      /\ console (snd (main_round w)) = console w ++ [menu; "Bye bye!"]).
Proof.
  split.
  - intros Hnone Hne. unfold main_round. run. rewrite Hin. run.
    rewrite (proj2 (String.eqb_neq a "exit") Hne), Hnone. proj.
    repeat split; reflexivity.
  - intros ->. unfold main_round. run. rewrite Hin. run.
    cbn [String.eqb Ascii.eqb Bool.eqb]. run.
    rewrite <- app_assoc. auto.
Qed.

Lemma main_round_ignores_unknown_witness :
  fst (main_round (with_stdin ["Add"; "exit"] example_store)) = Continue
  /\ console (snd (main_round (with_stdin ["Add"; "exit"] example_store)))
     = [menu].
Proof.
  pose proof (main_round_ignores_unknown
                (with_stdin ["Add"; "exit"] example_store) "Add" ["exit"]
                eq_refl) as [Hunknown _].
  destruct (Hunknown eq_refl ltac:(discriminate)) as (H1 & _ & _ & _ & _ & H2).
  exact (conj H1 H2).
Defined.

(** X12: when the definition of the card to remove is not a key of the
    secondary mapping (as after an import gave two cards the same
    definition and one of them was removed), [remove] deletes the card
    and then raises [KeyError] on the secondary mapping.  The loop of
    [main] takes the [KeyError] for an unknown command: the round goes
    on with the card gone and without the line [The card has been
    removed.] *)
Theorem remove_key_error_is_swallowed (w : World) (t : string)
    (c : Flashcard) (rest : list string)
    (Hcard : dict_get t (flashcards w) = Some c)
    (Hstale : dict_get (definition c) (definitions w) = None) :
  (stdin w = t :: rest ->
     fst (remove w) = Raise KeyError
     /\ (forall k, dict_get k (flashcards (snd (remove w)))
                   = if (k =? t)%string then None
                     else dict_get k (flashcards w))
     /\ definitions (snd (remove w)) = definitions w
     /\ console (snd (remove w)) = console w ++ ["Which card?"])
  /\ (stdin w = "remove" :: t :: rest ->
      fst (main_round w) = Continue
      /\ (forall k, dict_get k (flashcards (snd (main_round w)))
                    = if (k =? t)%string then None
                      else dict_get k (flashcards w))
      /\ definitions (snd (main_round w)) = definitions w
      /\ stdin (snd (main_round w)) = rest
      /\ console (snd (main_round w)) = console w ++ [menu; "Which card?"]).
Proof.
  split.
  - intros Hin. unfold remove, del_definition. run. rewrite Hin. run.
    rewrite Hcard. run. unfold dict_mem. rewrite Hstale. run.
    repeat split; auto. intros k. apply dict_get_del.
  - intros Hin. unfold main_round. run. rewrite Hin. run.
    change (actions "remove") with (Some remove).
    cbn [String.eqb Ascii.eqb Bool.eqb].
    unfold remove, del_definition. run. rewrite Hcard. run.
    unfold dict_mem. rewrite Hstale. run. rewrite <- app_assoc.
    repeat split; auto. intros k. apply dict_get_del.
Qed.

Lemma remove_key_error_is_swallowed_witness :
  flashcards orphan_world = [("a", mkFlashcard "a" "x" 0)]
  /\ definitions orphan_world = []
  /\ fst (remove (with_stdin ["a"] orphan_world)) = Raise KeyError
  /\ fst (main_round orphan_world) = Continue
  /\ console (snd (main_round orphan_world))
     = console orphan_world ++ [menu; "Which card?"].
Proof.
  pose proof (remove_key_error_is_swallowed orphan_world "a"
                (mkFlashcard "a" "x" 0) ["exit"] eq_refl eq_refl)
    as (_ & Hmenu).
  destruct (Hmenu eq_refl) as (Hgo & _ & _ & _ & Hcon).
  split; [reflexivity|]. split; [reflexivity|]. split; [reflexivity|].
  exact (conj Hgo Hcon).
Defined.

(** *** The loop ends *)

Lemma consumes_bind {A B} (m : M A) (k : A -> M B) :
  consumes m -> (forall a, consumes (k a)) -> consumes (bind m k).
Proof.
  intros Hm Hk w. unfold bind. specialize (Hm w).
  destruct (m w) as [[a|e] w']; cbn [fst snd] in *; [|exact Hm].
  specialize (Hk a w'). lia.
Qed.

Lemma consumes_quiet {A} (m : M A) :
  (forall w, stdin (snd (m w)) = stdin w) -> consumes m.
Proof. intros H w. now rewrite H. Qed.

Lemma consumes_out (msg : string) : consumes (out msg).
Proof. now apply consumes_quiet. Qed.

Lemma consumes_input : consumes input.
Proof.
  intros w. unfold input.
  destruct (stdin w) eqn:Hin; cbn [fst snd]; proj; rewrite ?Hin; cbn; lia.
Qed.

Lemma consumes__input : consumes _input.
Proof.
  unfold _input. apply consumes_bind; [apply consumes_input|intros s].
  apply consumes_bind; [|intros _]; now apply consumes_quiet.
Qed.

Lemma consumes_gets {A} (f : World -> A) : consumes (gets f).
Proof. now apply consumes_quiet. Qed.

Lemma consumes_write_file (f text : string) : consumes (write_file f text).
Proof.
  apply consumes_quiet. intros w. unfold write_file.
  now destruct (f =? "")%string.
Qed.

Lemma consumes_filename_or_prompt (filename : option string) :
  consumes (filename_or_prompt filename).
Proof.
  assert (Hprompt : consumes (out "File name:" ;; _input)).
  { apply consumes_bind; [apply consumes_out|intros _; apply consumes__input]. }
  destruct filename as [f|]; cbn [filename_or_prompt]; [|exact Hprompt].
  destruct (f =? "")%string; [exact Hprompt|now apply consumes_quiet].
Qed.

Lemma consumes_add_term_loop (pending : list string) :
  consumes (add_term_loop pending).
Proof.
  induction pending as [|x pending IH]; cbn [add_term_loop].
  - apply consumes__input.
  - apply consumes_bind; [apply consumes__input|intros t].
    apply consumes_bind; [apply consumes_gets|intros fl].
    destruct (dict_mem t fl); [|now apply consumes_quiet].
    apply consumes_bind; [apply consumes_out|intros _; exact IH].
Qed.

Lemma consumes_add_definition_loop (pending : list string) :
  consumes (add_definition_loop pending).
Proof.
  induction pending as [|x pending IH]; cbn [add_definition_loop].
  - apply consumes__input.
  - apply consumes_bind; [apply consumes__input|intros d].
    apply consumes_bind; [apply consumes_gets|intros ds].
    destruct (dict_mem d ds); [|now apply consumes_quiet].
    apply consumes_bind; [apply consumes_out|intros _; exact IH].
Qed.

Lemma consumes_new_card (t d : string) (e : Z) :
  consumes (c <- new_Flashcard t d e ;; store_card t c).
Proof. now apply consumes_quiet. Qed.

Lemma consumes_add : consumes add.
Proof.
  unfold add.
  apply consumes_bind; [apply consumes_out|intros _].
  apply consumes_bind; [apply consumes_gets|intros pending].
  apply consumes_bind; [apply consumes_add_term_loop|intros t].
  apply consumes_bind; [apply consumes_out|intros _].
  apply consumes_bind; [apply consumes_gets|intros pending'].
  apply consumes_bind; [apply consumes_add_definition_loop|intros d].
  apply consumes_bind; [now apply consumes_quiet|intros c].
  apply consumes_bind; [now apply consumes_quiet|intros _].
  apply consumes_out.
Qed.

Lemma consumes_remove : consumes remove.
Proof.
  unfold remove.
  apply consumes_bind; [apply consumes_out|intros _].
  apply consumes_bind; [apply consumes__input|intros card].
  apply consumes_bind; [apply consumes_gets|intros fl].
  destruct (dict_get card fl) as [c|]; [|apply consumes_out].
  apply consumes_bind; [now apply consumes_quiet|intros _].
  apply consumes_bind; [|intros _; apply consumes_out].
  unfold del_definition.
  apply consumes_bind; [apply consumes_gets|intros ds].
  destruct (dict_mem (definition c) ds); now apply consumes_quiet.
Qed.

Lemma consumes_import_lines (ls : list string) :
  forall n, consumes (import_lines ls n).
Proof.
  induction ls as [|line ls IH]; intros n; cbn [import_lines].
  - now apply consumes_quiet.
  - destruct (PyStr.split "=|=" (PyStr.strip line))
      as [|t [|d [|e [|x fields]]]]; try now apply consumes_quiet.
    destruct (PyStr.int e); [|now apply consumes_quiet].
    apply consumes_bind; [now apply consumes_quiet|intros c].
    apply consumes_bind; [now apply consumes_quiet|intros _].
    apply IH.
Qed.

Lemma consumes_import_file (filename : option string) :
  consumes (import_file filename).
Proof.
  unfold import_file.
  apply consumes_bind; [apply consumes_filename_or_prompt|intros f].
  apply consumes_bind; [apply consumes_gets|intros fs].
  destruct (dict_get f fs); [|apply consumes_out].
  apply consumes_bind; [apply consumes_import_lines|intros n].
  apply consumes_out.
Qed.

Lemma consumes_export (filename : option string) :
  consumes (export filename).
Proof.
  unfold export.
  apply consumes_bind; [apply consumes_filename_or_prompt|intros f].
  apply consumes_bind; [apply consumes_gets|intros fl].
  apply consumes_bind; [apply consumes_write_file|intros _].
  apply consumes_out.
Qed.

Lemma consumes_sample_go {A} (k : nat) :
  forall pool : list A, consumes (sample_go pool k).
Proof.
  induction k as [|k IH]; intros pool; cbn [sample_go].
  - now apply consumes_quiet.
  - destruct pool as [|x pool]; [now apply consumes_quiet|].
    apply consumes_bind; [now apply consumes_quiet|intros j].
    apply consumes_bind; [apply IH|intros r]. now apply consumes_quiet.
Qed.

Lemma consumes_select_cards (n : Z) : consumes (select_cards n).
Proof.
  unfold select_cards.
  apply consumes_bind; [apply consumes_gets|intros fl]. cbv zeta.
  destruct (n >? Z.of_nat (length fl))%Z.
  - destruct (Z.of_nat (length fl) =? 0)%Z; now apply consumes_quiet.
  - unfold random_sample. destruct (_ || _)%bool;
      [now apply consumes_quiet|apply consumes_sample_go].
Qed.

Lemma consumes_ask_card (i : nat) : consumes (ask_card i).
Proof.
  unfold ask_card.
  apply consumes_bind; [apply consumes_gets|intros fl].
  destruct (nth_error (dict_values fl) i) as [card|];
    [|now apply consumes_quiet].
  apply consumes_bind; [apply consumes_out|intros _].
  apply consumes_bind; [apply consumes__input|intros guess].
  destruct (_ =? _)%string; [apply consumes_out|].
  apply consumes_bind; [apply consumes_gets|intros ds].
  apply consumes_bind; [|intros _; now apply consumes_quiet].
  destruct (dict_get guess ds); apply consumes_out.
Qed.

Lemma consumes_ask_loop (refs : list nat) : consumes (ask_loop refs).
Proof.
  induction refs as [|i refs IH]; cbn [ask_loop].
  - now apply consumes_quiet.
  - apply consumes_bind; [apply consumes_ask_card|intros _; exact IH].
Qed.

Lemma consumes_ask : consumes ask.
Proof.
  unfold ask.
  apply consumes_bind; [apply consumes_out|intros _].
  apply consumes_bind; [apply consumes__input|intros s].
  apply consumes_bind.
  { unfold parse_int. destruct (PyStr.int s); now apply consumes_quiet. }
  intros n.
  apply consumes_bind; [apply consumes_select_cards|intros refs].
  apply consumes_ask_loop.
Qed.

Lemma consumes_log : consumes log.
Proof.
  unfold log.
  apply consumes_bind; [apply consumes_out|intros _].
  apply consumes_bind; [apply consumes_input|intros f].
  apply consumes_bind; [apply consumes_gets|intros content].
  apply consumes_bind; [apply consumes_write_file|intros _].
  apply consumes_out.
Qed.

Lemma consumes_hardest_card : consumes hardest_card.
Proof.
  unfold hardest_card.
  apply consumes_bind; [apply consumes_gets|intros fl]. cbv zeta.
  destruct (_ =? 0)%Z; apply consumes_out.
Qed.

Lemma consumes_reset_stats : consumes reset_stats.
Proof.
  unfold reset_stats.
  apply consumes_bind; [now apply consumes_quiet|intros _].
  apply consumes_out.
Qed.

Lemma consumes_actions (a : string) (act : M unit) :
  actions a = Some act -> consumes act.
Proof.
  unfold actions.
  repeat match goal with
         | |- context [if ?b then _ else _] => destruct b
         end; intros [= <-];
    auto using consumes_add, consumes_remove, consumes_import_file,
      consumes_export, consumes_ask, consumes_log, consumes_hardest_card,
      consumes_reset_stats.
Qed.

(** A round after which the loop goes on has read at least the line of
    the command. *)
Lemma main_round_progress (w : World) :
  fst (main_round w) = Continue ->
  length (stdin (snd (main_round w))) < length (stdin w).
Proof.
  unfold main_round. run.
  destruct (stdin w) as [|a rest] eqn:Hin; run; [discriminate|].
  destruct (a =? "exit")%string; run; [discriminate|].
  destruct (actions a) as [act|] eqn:Hact; run; [|intros _; cbn; lia].
  pose proof (consumes_actions a act Hact) as Hact'.
  match goal with
  | |- context [act ?w1] =>
      specialize (Hact' w1); destruct (act w1) as [[[]|e] w2]
  end; revert Hact'; run; intros Hact'.
  - intros _. cbn [length]. lia.
  - destruct e; run; try discriminate. intros _. cbn [length]. lia.
Qed.

(** X13: the interactive loop ends on every console input: with one
    round more than there are lines left, it has left with [exit] or an
    exception has ended the process ([EOFError] when the lines run out),
    and more rounds give the same end. *)
Theorem main_loop_ends (w : World) (fuel : nat)
    (Hfuel : length (stdin w) < fuel) :
  exists r w',
    main_loop fuel w = Some (r, w')
    /\ r <> Continue
    /\ main_loop (S (length (stdin w))) w = Some (r, w').
Proof.
  assert (Hend : forall fuel w, length (stdin w) < fuel ->
            exists r w', main_loop fuel w = Some (r, w') /\ r <> Continue
              /\ forall fuel', length (stdin w) < fuel' ->
                    main_loop fuel' w = Some (r, w')).
  { clear. induction fuel as [|fuel IH]; intros w Hfuel; [lia|].
    pose proof (main_round_progress w) as Hprog.
    destruct (main_round w) as [r w1] eqn:Hround; cbn [fst snd] in Hprog.
    destruct r as [| |e].
    - specialize (Hprog eq_refl).
      destruct (IH w1 ltac:(lia)) as (r & w' & Hrun & Hr & Hsame).
      exists r, w'. cbn [main_loop]. rewrite Hround.
      split; [exact Hrun|]. split; [exact Hr|].
      intros [|fuel'] Hfuel'; [lia|]. cbn [main_loop]. rewrite Hround.
      apply Hsame. lia.
    - exists Exited, w1. cbn [main_loop]. rewrite Hround.
      split; [reflexivity|]. split; [discriminate|].
      intros [|fuel'] Hfuel'; [lia|]. cbn [main_loop]. now rewrite Hround.
    - exists (Crashed e), w1. cbn [main_loop]. rewrite Hround.
      split; [reflexivity|]. split; [discriminate|].
      intros [|fuel'] Hfuel'; [lia|]. cbn [main_loop]. now rewrite Hround. }
  destruct (Hend fuel w Hfuel) as (r & w' & Hrun & Hr & Hsame).
  exists r, w'. split; [exact Hrun|]. split; [exact Hr|].
  apply Hsame. lia.
Qed.

Lemma main_loop_ends_witness :
  exists r w',
    main_loop 11 session_world = Some (r, w') /\ r <> Continue.
Proof.
  destruct (main_loop_ends session_world 11 ltac:(simpl; lia))
    as (r & w' & Hrun & Hr & _).
  exists r, w'. split; [exact Hrun|exact Hr].
Defined.

(** ** log *)






(** ** add, then remove *)

Lemma dict_del_last {V} (k : string) (v : V) (d : dict V) :
  dict_get k d = None -> dict_del k (d ++ [(k, v)]) = d.
Proof.
  induction d as [|[k0 v0] r IH]; simpl.
  - now rewrite String.eqb_refl.
  - destruct (k0 =? k)%string; [discriminate|].
    intros H. now rewrite IH.
Qed.

(** X15: adding a card under a fresh term and a fresh definition and
    then removing that term gives back the store as it was: both
    mappings, entries and order. *)
Theorem add_then_remove_restores (w : World) (t d : string)
    (rest : list string)
    (Hin : stdin w = t :: d :: t :: rest)
    (Ht : dict_get t (flashcards w) = None)
    (Hd : dict_get d (definitions w) = None) :
  fst ((add ;; remove) w) = Ok tt
  /\ flashcards (snd ((add ;; remove) w)) = flashcards w
  /\ definitions (snd ((add ;; remove) w)) = definitions w
  /\ stdin (snd ((add ;; remove) w)) = rest.
Proof.
  destruct (add_run w [] [] t d (t :: rest) Hin) as (Hok & Hrest & Hf & Hdefs & _);
    auto; try (intros x []).
  unfold bind. destruct (add w) as [[[]|e] w1]; cbn [fst snd] in *;
    [|discriminate].
  assert (Hcard : dict_get t (flashcards w1) = Some (mkFlashcard t d 0)).
  { rewrite Hf, <- (dict_set_absent _ _ _ Ht), dict_get_set.
    now rewrite String.eqb_refl. }
  destruct (remove_run w1 t rest Hrest) as [Hrest' Hcase].
  rewrite Hcard in Hcase. destruct Hcase as (Hf' & Hd' & Hok').
  cbn [definition] in *.
  rewrite Hf', Hd', Hok', Hf, Hdefs, Hrest'.
  rewrite (dict_del_last _ _ _ Ht), (dict_del_last _ _ _ Hd).
  unfold dict_mem. rewrite <- (dict_set_absent _ _ _ Hd), dict_get_set.
  rewrite String.eqb_refl. auto.
Qed.

Lemma add_then_remove_restores_witness :
  flashcards (snd ((add ;; remove)
                     (with_stdin ["gnu"; "gnat"; "gnu"] example_store)))
  = flashcards example_store.
Proof.
  exact (proj1 (proj2
    (add_then_remove_restores
       (with_stdin ["gnu"; "gnat"; "gnu"] example_store) "gnu" "gnat" []
       eq_refl eq_refl eq_refl))).
Defined.

(** ** main: leaving with a file to export to *)



(** ** hardest card after a quiz *)

Lemma filter_no_errors (cards : list Flashcard) :
  Forall (fun c => error_count c = 0%Z) cards ->
  filter (fun c => (error_count c =? 1)%Z) cards = [].
Proof.
  induction 1 as [|c l Hc Hl IH]; [reflexivity|].
  cbn [filter]. now rewrite Hc, IH.
Qed.

Lemma bump_error_single (fl : dict Flashcard) :
  forall (i : nat) (card : Flashcard),
    Forall (fun c => error_count c = 0%Z) (dict_values fl) ->
    nth_error (dict_values fl) i = Some card ->
    map term (filter (fun c => (error_count c =? 1)%Z)
                (dict_values (bump_error i fl)))
    = [term card]
    /\ Forall (fun c => error_count c = 0%Z \/ error_count c = 1%Z)
         (dict_values (bump_error i fl)).
Proof.
  induction fl as [|[k c] r IH]; intros i card Hzero Hnth.
  - destruct i; discriminate.
  - cbn [dict_values map] in Hzero. inversion Hzero as [|? ? Hc Hr]; subst.
    destruct i as [|i]; cbn [bump_error dict_values map filter error_count].
    + cbn in Hnth. injection Hnth as <-. rewrite Hc. cbn [Z.add Z.eqb].
      split.
      * cbn [map term]. f_equal.
        now rewrite (filter_no_errors _ Hr).
      * constructor; [now right|].
        change (map snd r) with (dict_values r).
        eapply Forall_impl; [|exact Hr]. intros a Ha. now left.
    + cbn in Hnth. cbn [snd]. rewrite Hc. cbn [Z.eqb].
      destruct (IH i card Hr Hnth) as [Hone Hall]. split.
      * exact Hone.
      * constructor; [now left|exact Hall].
Qed.

(** X17: on a store where no card has errors, one question answered
    with a guess that does not match makes that card the hardest card:
    [hardest_card] then names exactly its term, in the singular form
    and with the count 1. *)
Theorem one_miss_is_hardest (w : World) (i : nat) (card : Flashcard)
    (guess : string) (rest : list string)
    (Hzero : Forall (fun c => error_count c = 0%Z)
               (dict_values (flashcards w)))
    (Hcard : nth_error (dict_values (flashcards w)) i = Some card)
    (Hin : stdin w = guess :: rest)
    (Hmiss : missed card guess = true) :
  fst ((ask_card i ;; hardest_card) w) = Ok tt
  /\ hardest_cards (snd (ask_card i w)) = [term card]
  /\ console (snd ((ask_card i ;; hardest_card) w))
     = console w
       ++ [prompt (term card);
           render (verdict (definitions w) card guess);
           ("The hardest card is " ++ dq ++ term card ++ dq
            ++ ". You have 1 errors answering it.")%string].
Proof.
  destruct (ask_card_run w i card guess rest Hcard Hin)
    as (Hok & _ & _ & Hcon & Hfl).
  unfold missed in Hmiss. apply negb_true_iff in Hmiss.
  rewrite Hmiss in Hfl.
  destruct (bump_error_single (flashcards w) i card Hzero Hcard)
    as [Hone Hall].
  assert (Hmax : max_error
                   (map error_count (dict_values (bump_error i (flashcards w))))
                 = 1%Z).
  { set (errors := map error_count
                     (dict_values (bump_error i (flashcards w)))).
    assert (Hin1 : In 1%Z errors).
    { unfold errors. apply in_map_iff.
      exists (mkFlashcard (term card) (definition card) (error_count card + 1)).
      split.
      - cbn. rewrite Forall_forall in Hzero.
        rewrite (Hzero card (nth_error_In _ _ Hcard)). reflexivity.
      - eapply nth_error_In. now apply bump_error_same. }
    pose proof (max_error_upper errors 1%Z Hin1) as Hge.
    assert (Hne : errors <> []) by (intros E; rewrite E in Hin1; inversion Hin1).
    apply max_error_attained in Hne.
    apply in_map_iff in Hne as (c & Hc & Hcin).
    rewrite Forall_forall in Hall. destruct (Hall c Hcin); lia. }
  assert (Hhard : hardest_cards (snd (ask_card i w)) = [term card]).
  { unfold hardest_cards. rewrite Hfl, Hmax. cbn [Z.eqb].
    now rewrite collect_hardest_filter. }
  split; [|split; [exact Hhard|]].
  - unfold bind. destruct (ask_card i w) as [[[]|e] w1]; cbn [fst snd] in *;
      [|discriminate].
    unfold hardest_card. run. rewrite Hfl, Hmax. reflexivity.
  - unfold bind. destruct (ask_card i w) as [[[]|e] w1]; cbn [fst snd] in *;
      [|discriminate].
    unfold hardest_card. run. rewrite Hfl, Hmax. cbn [Z.eqb]. run.
    rewrite collect_hardest_filter, Hone, Hcon, <- app_assoc.
    reflexivity.
Qed.

Lemma one_miss_is_hardest_witness :
  console (snd ((ask_card 1 ;; hardest_card)
                  (with_stdin ["x"] passes_example)))
  = [prompt "B";
     render (WrongButMatchesOtherTerm "y" "A");
     ("The hardest card is " ++ dq ++ "B" ++ dq
      ++ ". You have 1 errors answering it.")%string].
Proof.
  pose proof (one_miss_is_hardest (with_stdin ["x"] passes_example) 1
                (mkFlashcard "B" "y" 0) "x" []
                ltac:(repeat constructor) eq_refl eq_refl eq_refl)
    as (_ & _ & Hcon).
  rewrite Hcon. reflexivity.
Defined.
